(** * Bluesky comment section: the threaded reply mirror

    A shallow embedding of the two comment-section scripts of the blog
    (src/unnamed/part_007, the depth-limited renderer with deep links, and
    src/unnamed/part_008, the plain renderer), with the properties of the
    identifier translator, the renderer, the fetch cycle, the per-page
    initialisation and the refresh timer. *)

From Stdlib Require Import String Ascii List ZArith NArith Lia Bool DecimalString.
Import ListNotations.
Set Warnings "-register-all".
Open Scope string_scope.
Open Scope Z_scope.

(** ** JavaScript values used by the scripts *)

(** HTML attribute quotes are written with a backtick in the template text
    below (a backtick cannot occur inside a JavaScript template literal);
    [q] puts the quote character (code 34) back. *)
Fixpoint q (s : string) : string :=
  match s with
  | EmptyString => EmptyString
  | String c r =>
      String (if Ascii.eqb c "`"%char then ascii_of_nat 34 else c) (q r)
  end.
Arguments q : simpl never.

(** [String(n)] for an integer: the decimal numeral with a minus sign. *)
Definition showZ (n : Z) : string := NilZero.string_of_int (Z.to_int n).

(** [x || 0] on an optional number: [undefined] and [0] are falsy. *)
Definition orZero (x : option Z) : Z :=
  match x with
  | Some n => if n =? 0 then 0 else n
  | None => 0
  end.

(** [s.split(sep)] for a one-character separator: never an empty array. *)
Fixpoint split (sep : ascii) (s : string) : list string :=
  match s with
  | EmptyString => [EmptyString]
  | String c rest =>
      if Ascii.eqb c sep then EmptyString :: split sep rest
      else match split sep rest with
           | seg :: segs => String c seg :: segs
           | [] => [String c EmptyString]
           end
  end.

(** [a.pop()]: the last element, [undefined] on an empty array. *)
Fixpoint pop (a : list string) : option string :=
  match a with
  | [] => None
  | [x] => Some x
  | _ :: rest => pop rest
  end.

(** A value interpolated into a template literal: [undefined] prints as
    the word itself. *)
Definition interpolate (v : option string) : string :=
  match v with
  | Some s => s
  | None => "undefined"
  end.

(** ** Data model: interface BlueskyPost (part_007, lines 1-18) *)

Record Author := mkAuthor
  { avatar : string; displayName : string; handle : string }.

Record PostRecord := mkPostRecord { text : string }.

(** The three counters are numbers that the payload may leave out. *)
Record Post := mkPost
  { uri : string;
    author : Author;
    record : PostRecord;
    indexedAt : string;
    likeCount : option Z;
    repostCount : option Z;
    replyCount : option Z }.

Inductive BlueskyPost : Type :=
  mkBlueskyPost (post : Post) (replies : option (list BlueskyPost)).

Definition post (c : BlueskyPost) : Post :=
  match c with mkBlueskyPost p _ => p end.

Definition replies (c : BlueskyPost) : option (list BlueskyPost) :=
  match c with mkBlueskyPost _ rs => rs end.

(** ** Identifier translator: getBlueskyPostUrl (part_007, lines 20-23) *)

Definition getBlueskyPostUrl (uri handle : string) : string :=
  let postId := pop (split "/"%char uri) in
  "https://bsky.app/profile/" ++ handle ++ "/post/" ++ interpolate postId.

(** ** Rendered markup

    A template literal evaluates to the concatenation of its text chunks
    and its interpolated values.  [Html] keeps them apart: [Lit] is text of
    the template, [InsStr] and [InsNum] are interpolated strings and
    numbers (the payload is not escaped, so only this separation tells
    markup of the script from markup inside a post), and [Sub] is a nested
    template literal, labelled with the template it instantiates.
    [flatten] is the string the script builds. *)

(** The two remote-continuation links, both of class continue-thread:
    Continue this thread on Bluesky, and View n more replies on Bluesky. *)
Inductive Link : Type :=
| ContinueThread (url : string)
| ViewMore (url : string) (n : Z).

(** The templates of the scripts: that of a comment or a reply, filled
    in for a post; that of the list of replies below a node; that of a
    continuation link. *)
Inductive Mark : Type :=
| Node (p : Post)
| Replies
| Anchor (l : Link).

Inductive Html : Type :=
| Lit (s : string)
| InsStr (s : string)
| InsNum (n : Z)
| Sub (m : Mark) (body : list Html).

Fixpoint flatten (h : Html) : string :=
  match h with
  | Lit s => s
  | InsStr s => s
  | InsNum n => showZ n
  | Sub _ body => String.concat "" (map flatten body)
  end.

(** [parts.join('')] *)
Definition join (parts : list Html) : string :=
  String.concat "" (map flatten parts).

Definition linkUrl (l : Link) : string :=
  match l with
  | ContinueThread url => url
  | ViewMore url _ => url
  end.

(** ** The depth-limited renderer (part_007, lines 100-202) *)

Module Linked.
Section Renderer.

(** [new Date(s).toLocaleDateString()] depends on the browser's locale. *)
Variable toLocaleDateString : string -> string.

(** Lines 118-124. *)
Definition continueThread (parentUrl : string) : Html :=
  Sub (Anchor (ContinueThread parentUrl))
  [ Lit (q "
          <div class=`replies`>
            <a href=`");
    InsStr parentUrl;
    Lit (q "` target=`_blank` rel=`noopener noreferrer` class=`continue-thread`>
              Continue this thread on Bluesky ‚Üí
            </a>
          </div>
        ") ].

(** Lines 159 and 196 (the same text). *)
Definition viewMore (replyUrl : string) (n : Z) : Html :=
  Sub (Anchor (ViewMore replyUrl n))
  [ Lit (q "<div class=`replies`><a href=`");
    InsStr replyUrl;
    Lit (q "` target=`_blank` rel=`noopener noreferrer` class=`continue-thread`>View ");
    InsNum n;
    Lit (q " more ");
    InsStr (if n =? 1 then "reply" else "replies");
    Lit (q " on Bluesky ‚Üí</a></div>") ].

(** [replyCount > 0 ? `...` : ''] (lines 158-161 and 195-198);
    [undefined > 0] is false. *)
Definition moreReplies (url : string) (count : option Z) : list Html :=
  match count with
  | Some n => if 0 <? n then [viewMore url n] else []
  | None => []
  end.

(** Lines 133-155: a reply up to its nested replies. *)
Definition replyHead (replyUrl replyDate : string) (p : Post) : list Html :=
  [ Lit (q "
              <div class=`comment reply`>
                <a href=`");
    InsStr replyUrl;
    Lit (q "` target=`_blank` rel=`noopener noreferrer` class=`comment-link`>
                  <div class=`comment-header`>
                    <img src=`");
    InsStr (avatar (author p));
    Lit (q "`
                         alt=`");
    InsStr (displayName (author p));
    Lit (q "'s avatar`
                         class=`avatar`
                         style=`width: 32px; height: 32px; border-radius: 50%; object-fit: cover;` />
                    <div class=`author-info`>
                      <span class=`author-name`>");
    InsStr (displayName (author p));
    Lit (q "</span>
                      <span class=`author-handle`>@");
    InsStr (handle (author p));
    Lit (q "</span>
                    </div>
                  </div>
                  <div class=`comment-content`>");
    InsStr (text (record p));
    Lit (q "</div>
                </a>
                <div class=`comment-footer`>
                  <div class=`interaction-counts`>
                    <a href=`");
    InsStr replyUrl;
    Lit (q "` target=`_blank` rel=`noopener noreferrer` title=`Reply on Bluesky`><span>");
    InsNum (orZero (replyCount p));
    Lit (q " üí¨</span></a>
                    <a href=`");
    InsStr replyUrl;
    Lit (q "` target=`_blank` rel=`noopener noreferrer` title=`Repost on Bluesky`><span>");
    InsNum (orZero (repostCount p));
    Lit (q " üîÅ</span></a>
                    <a href=`");
    InsStr replyUrl;
    Lit (q "` target=`_blank` rel=`noopener noreferrer` title=`Like on Bluesky`><span>");
    InsNum (orZero (likeCount p));
    Lit (q " ‚ù§Ô∏è</span></a>
                  </div>
                  <time datetime=`");
    InsStr (indexedAt p);
    Lit (q "`>");
    InsStr replyDate;
    Lit (q "</time>
                </div>
                ") ].

(** Lines 162-164. *)
Definition replyTail : list Html :=
  [ Lit (q "
              </div>
            ") ].

(** Lines 170-192: a top-level comment up to its replies. *)
Definition commentHead (postUrl date : string) (p : Post) : list Html :=
  [ Lit (q "
      <div class=`comment`>
        <a href=`");
    InsStr postUrl;
    Lit (q "` target=`_blank` rel=`noopener noreferrer` class=`comment-link`>
          <div class=`comment-header`>
            <img src=`");
    InsStr (avatar (author p));
    Lit (q "`
                 alt=`");
    InsStr (displayName (author p));
    Lit (q "'s avatar`
                 class=`avatar`
                 style=`width: 32px; height: 32px; border-radius: 50%; object-fit: cover;` />
            <div class=`author-info`>
              <span class=`author-name`>");
    InsStr (displayName (author p));
    Lit (q "</span>
              <span class=`author-handle`>@");
    InsStr (handle (author p));
    Lit (q "</span>
            </div>
          </div>
          <div class=`comment-content`>");
    InsStr (text (record p));
    Lit (q "</div>
        </a>
        <div class=`comment-footer`>
          <div class=`interaction-counts`>
            <a href=`");
    InsStr postUrl;
    Lit (q "` target=`_blank` rel=`noopener noreferrer` title=`Reply on Bluesky`><span>");
    InsNum (orZero (replyCount p));
    Lit (q " üí¨</span></a>
            <a href=`");
    InsStr postUrl;
    Lit (q "` target=`_blank` rel=`noopener noreferrer` title=`Repost on Bluesky`><span>");
    InsNum (orZero (repostCount p));
    Lit (q " üîÅ</span></a>
            <a href=`");
    InsStr postUrl;
    Lit (q "` target=`_blank` rel=`noopener noreferrer` title=`Like on Bluesky`><span>");
    InsNum (orZero (likeCount p));
    Lit (q " ‚ù§Ô∏è</span></a>
          </div>
          <time datetime=`");
    InsStr (indexedAt p);
    Lit (q "`>");
    InsStr date;
    Lit (q "</time>
        </div>
        ") ].

(** Lines 199-201. *)
Definition commentTail : list Html :=
  [ Lit (q "
      </div>
    ") ].

(** Lines 113-168, the closure [renderReplies], with the callback of
    [replies.map] as [item]. *)
Definition renderRepliesWith (item : BlueskyPost -> Html) (maxDepth : nat)
    (replies : list BlueskyPost) (depth : nat) (parentUrl : string)
    : list Html :=
  if (length replies =? 0)%nat then []
  else if (maxDepth <=? depth)%nat then [continueThread parentUrl]
  else [Sub Replies
          ([ Lit (q "
        <div class=`replies`>
          ") ]
           ++ map item replies ++
           [ Lit (q "
        </div>
      ") ])].

(** Lines 129-165: the callback of [replies.map] inside
    [renderReplies(replies, depth, parentUrl)]. *)
Fixpoint renderReply (maxDepth depth : nat) (reply : BlueskyPost) : Html :=
  match reply with
  | mkBlueskyPost p rs =>
      let replyDate := toLocaleDateString (indexedAt p) in
      let replyUrl := getBlueskyPostUrl (uri p) (handle (author p)) in
      Sub (Node p)
        (replyHead replyUrl replyDate p
         ++ match rs with
            | Some l =>
                if (0 <? length l)%nat
                then renderRepliesWith (renderReply maxDepth (S depth))
                       maxDepth l (S depth) replyUrl
                else moreReplies replyUrl (replyCount p)
            | None => moreReplies replyUrl (replyCount p)
            end
         ++ replyTail)
  end.

Definition renderReplies (maxDepth : nat) (replies : list BlueskyPost)
    (depth : nat) (parentUrl : string) : list Html :=
  renderRepliesWith (renderReply maxDepth depth) maxDepth replies depth
    parentUrl.

(** Lines 109-202. *)
Definition renderComment (comment : BlueskyPost) (maxDepth : nat) : Html :=
  let p := post comment in
  let date := toLocaleDateString (indexedAt p) in
  let postUrl := getBlueskyPostUrl (uri p) (handle (author p)) in
  Sub (Node p)
    (commentHead postUrl date p
     ++ match replies comment with
        | Some l =>
            if (0 <? length l)%nat
            then renderReplies maxDepth l 1 postUrl
            else moreReplies postUrl (replyCount p)
        | None => moreReplies postUrl (replyCount p)
        end
     ++ commentTail).

(** [maxDepth: number = 3] *)
Definition defaultMaxDepth : nat := 3.

(** Lines 100-107: what [renderComments] assigns to [innerHTML], before
    [join]. *)
Definition renderComments (comments : list BlueskyPost) : list Html :=
  if (length comments =? 0)%nat
  then [Lit (q "<p class=`no-comments`>No comments yet. Be the first to comment!</p>")]
  else map (fun comment => renderComment comment defaultMaxDepth) comments.

End Renderer.
End Linked.

(** ** The plain renderer (part_008, lines 94-165) *)

Module Plain.
Section Renderer.

Variable toLocaleDateString : string -> string.

(** Lines 112-132. *)
Definition replyHead (replyDate : string) (p : Post) : list Html :=
  [ Lit (q "
              <div class=`comment reply`>
                <div class=`comment-header`>
                  <img src=`");
    InsStr (avatar (author p));
    Lit (q "`
                       alt=`");
    InsStr (displayName (author p));
    Lit (q "'s avatar`
                       class=`avatar`
                       style=`width: 32px; height: 32px; border-radius: 50%; object-fit: cover;` />
                  <div class=`author-info`>
                    <span class=`author-name`>");
    InsStr (displayName (author p));
    Lit (q "</span>
                    <span class=`author-handle`>@");
    InsStr (handle (author p));
    Lit (q "</span>
                  </div>
                </div>
                <div class=`comment-content`>");
    InsStr (text (record p));
    Lit (q "</div>
                <div class=`comment-footer`>
                  <div class=`interaction-counts`>
                    <span>");
    InsNum (orZero (replyCount p));
    Lit (q " 💬</span>
                    <span>");
    InsNum (orZero (repostCount p));
    Lit (q " 🔁</span>
                    <span>");
    InsNum (orZero (likeCount p));
    Lit (q " ❤️</span>
                  </div>
                  <time datetime=`");
    InsStr (indexedAt p);
    Lit (q "`>");
    InsStr replyDate;
    Lit (q "</time>
                </div>
                ") ].

(** Lines 133-135. *)
Definition replyTail : list Html :=
  [ Lit (q "
              </div>
            ") ].

(** Lines 141-161. *)
Definition commentHead (date : string) (p : Post) : list Html :=
  [ Lit (q "
      <div class=`comment`>
        <div class=`comment-header`>
          <img src=`");
    InsStr (avatar (author p));
    Lit (q "`
               alt=`");
    InsStr (displayName (author p));
    Lit (q "'s avatar`
               class=`avatar`
               style=`width: 32px; height: 32px; border-radius: 50%; object-fit: cover;` />
          <div class=`author-info`>
            <span class=`author-name`>");
    InsStr (displayName (author p));
    Lit (q "</span>
            <span class=`author-handle`>@");
    InsStr (handle (author p));
    Lit (q "</span>
          </div>
        </div>
        <div class=`comment-content`>");
    InsStr (text (record p));
    Lit (q "</div>
        <div class=`comment-footer`>
          <div class=`interaction-counts`>
            <span>");
    InsNum (orZero (replyCount p));
    Lit (q " 💬</span>
            <span>");
    InsNum (orZero (repostCount p));
    Lit (q " 🔁</span>
            <span>");
    InsNum (orZero (likeCount p));
    Lit (q " ❤️</span>
          </div>
          <time datetime=`");
    InsStr (indexedAt p);
    Lit (q "`>");
    InsStr date;
    Lit (q "</time>
        </div>
        ") ].

(** Lines 162-164. *)
Definition commentTail : list Html :=
  [ Lit (q "
      </div>
    ") ].

(** Lines 106-139, with the callback of [replies.map] as [item]. *)
Definition renderRepliesWith (item : BlueskyPost -> Html)
    (replies : list BlueskyPost) : list Html :=
  if (length replies =? 0)%nat then []
  else [Sub Replies
          ([ Lit (q "
        <div class=`replies`>
          ") ]
           ++ map item replies ++
           [ Lit (q "
        </div>
      ") ])].

(** Lines 110-136; [replies: BlueskyPost[] = []] turns a missing array
    into the empty one. *)
Fixpoint renderReply (reply : BlueskyPost) : Html :=
  match reply with
  | mkBlueskyPost p rs =>
      let replyDate := toLocaleDateString (indexedAt p) in
      Sub (Node p)
        (replyHead replyDate p
         ++ match rs with
            | Some l => renderRepliesWith renderReply l
            | None => renderRepliesWith renderReply []
            end
         ++ replyTail)
  end.

Definition renderReplies (replies : option (list BlueskyPost)) : list Html :=
  match replies with
  | Some l => renderRepliesWith renderReply l
  | None => renderRepliesWith renderReply []
  end.

(** Lines 103-165. *)
Definition renderComment (comment : BlueskyPost) : Html :=
  let p := post comment in
  let date := toLocaleDateString (indexedAt p) in
  Sub (Node p)
    (commentHead date p ++ renderReplies (replies comment) ++ commentTail).

(** Lines 94-101. *)
Definition renderComments (comments : list BlueskyPost) : list Html :=
  if (length comments =? 0)%nat
  then [Lit (q "<p class=`no-comments`>No comments yet. Be the first to comment!</p>")]
  else map renderComment comments.

End Renderer.
End Plain.

(** Induction on a tree together with all its replies. *)
Section TreeInduction.
Variable P : BlueskyPost -> Prop.
Hypothesis P_leaf : forall p, P (mkBlueskyPost p None).
Hypothesis P_node : forall p l, Forall P l -> P (mkBlueskyPost p (Some l)).

Fixpoint BlueskyPost_nested_ind (c : BlueskyPost) : P c :=
  match c with
  | mkBlueskyPost p None => P_leaf p
  | mkBlueskyPost p (Some l) =>
      P_node p l
        ((fix all (l : list BlueskyPost) : Forall P l :=
            match l with
            | [] => Forall_nil P
            | x :: r => Forall_cons x (BlueskyPost_nested_ind x) (all r)
            end) l)
  end.
End TreeInduction.

(** ** Reading the rendered markup and the input tree

    The vocabulary of the properties: the nodes of an input tree with the
    depth they sit at (the root reply level is depth 1), and the comment
    blocks of the rendered markup with the depth they are nested at, the
    numbers they show and the continuation links they carry themselves. *)

Definition children (c : BlueskyPost) : list BlueskyPost :=
  match replies c with
  | Some l => l
  | None => []
  end.

Definition hasChildren (c : BlueskyPost) : bool :=
  negb (length (children c) =? 0)%nat.

Definition postUrl (c : BlueskyPost) : string :=
  getBlueskyPostUrl (uri (post c)) (handle (author (post c))).

(** The nodes of a tree in document order, each with its depth. *)
Fixpoint nodes (d : nat) (c : BlueskyPost) : list (nat * BlueskyPost) :=
  match c with
  | mkBlueskyPost _ rs =>
      (d, c) :: match rs with
                | Some l => flat_map (nodes (S d)) l
                | None => []
                end
  end.

Definition within (D : nat) (x : nat * BlueskyPost) : bool :=
  (fst x <=? D)%nat.

Record Block := mkBlock
  { b_depth : nat;
    b_post : Post;
    b_counters : list Z;
    b_links : list Link }.

Definition ownNumbers (body : list Html) : list Z :=
  flat_map (fun h => match h with InsNum n => [n] | _ => [] end) body.

Definition ownLinks (body : list Html) : list Link :=
  flat_map (fun h => match h with Sub (Anchor l) _ => [l] | _ => [] end) body.

(** The comment blocks of a piece of markup in document order; [d] is the
    depth of the blocks at its top level. *)
Fixpoint blocks (d : nat) (h : Html) : list Block :=
  match h with
  | Sub (Node p) body =>
      mkBlock d p (ownNumbers body) (ownLinks body)
      :: flat_map (blocks (S d)) body
  | Sub Replies body => flat_map (blocks d) body
  | _ => []
  end.


(** What a block shows of its node, and where it sits. *)
Definition placed (b : Block) : nat * Post := (b_depth b, b_post b).

Definition placedNode (x : nat * BlueskyPost) : nat * Post :=
  (fst x, post (snd x)).

(** The links the depth-limited renderer gives a node at depth [d]. *)
Definition linksAt (D d : nat) (c : BlueskyPost) : list Link :=
  if hasChildren c
  then if (d <? D)%nat then [] else [ContinueThread (postUrl c)]
  else match replyCount (post c) with
       | Some n => if 0 <? n then [ViewMore (postUrl c) n] else []
       | None => []
       end.

Definition counters (c : BlueskyPost) : list Z :=
  [ orZero (replyCount (post c));
    orZero (repostCount (post c));
    orZero (likeCount (post c)) ].

Definition describe (D : nat) (x : nat * BlueskyPost) : Block :=
  mkBlock (fst x) (post (snd x)) (counters (snd x)) (linksAt D (fst x) (snd x)).

Definition describePlain (x : nat * BlueskyPost) : Block :=
  mkBlock (fst x) (post (snd x)) (counters (snd x)) [].

(** A counter of the payload that is present is a count. *)
Definition nonNegative (o : option Z) : Prop :=
  forall n, o = Some n -> 0 <= n.

(** A block without its links, and the blocks down to a depth. *)
Definition unlinked (b : Block) : Block :=
  mkBlock (b_depth b) (b_post b) (b_counters b) [].

Definition shallow (D : nat) (b : Block) : bool :=
  (b_depth b <=? D)%nat.





(** [s] occurs in [t]. *)
Definition occursIn (s t : string) : Prop :=
  exists before after, t = before ++ s ++ after.

Definition noSlash (s : string) : Prop :=
  ~ In "/"%char (list_ascii_of_string s).

(** ** The view: class CommentSection (part_007, lines 25-98)

    An element of the host page carries what the script reads and writes:
    its [style.display], its content ([textContent] or [innerHTML]) and
    the number of click listeners registered on it. *)

Record Element := mkElement
  { style_display : string;
    content : string;
    clickListeners : nat }.

Definition setDisplay (v : string) (e : Element) : Element :=
  mkElement v (content e) (clickListeners e).

Definition setContent (v : string) (e : Element) : Element :=
  mkElement (style_display e) v (clickListeners e).

Definition addClickListener (e : Element) : Element :=
  mkElement (style_display e) (content e) (S (clickListeners e)).

Record CommentSection := mkCommentSection
  { bluesky_uri : string;
    loader : Element;
    errorDiv : Element;
    commentsList : Element;
    refreshButton : Element }.

(** The host container: [dataset.blueskyUri] and the four descendants
    that [querySelector] looks up, each possibly missing. *)
Record Container := mkContainer
  { dataset_blueskyUri : option string;
    comments_loader : option Element;
    comments_error : option Element;
    comments_list : option Element;
    refresh_comments : option Element }.

(** What a [catch] clause can receive. *)
Inductive Thrown : Type :=
| ErrorObject (message : string)
| OtherThrown.

(** [{ thread: { replies } }], both levels optional. *)
Record Thread := mkThread { thread_replies : option (list BlueskyPost) }.
Record Envelope := mkEnvelope { thread : option Thread }.

(** How [fetch] and [response.json()] turn out. *)
Inductive Fetched : Type :=
| NetworkFailure (e : Thrown)
| Response (status : Z) (json : Thrown + Envelope).

(** [response.ok] *)
Definition response_ok (status : Z) : bool :=
  (200 <=? status) && (status <=? 299).

(** [data.thread?.replies || []] *)
Definition threadReplies (data : Envelope) : list BlueskyPost :=
  match thread data with
  | Some t =>
      match thread_replies t with
      | Some l => l
      | None => []
      end
  | None => []
  end.

Section Cycle.

(** What [this.renderComments] of the file at hand builds. *)
Variable renderCommentsHtml : list BlueskyPost -> list Html.

(** Lines 100-107. *)
Definition renderComments (v : CommentSection)
    (comments : list BlueskyPost) : CommentSection :=
  mkCommentSection (bluesky_uri v) (loader v) (errorDiv v)
    (setContent (join (renderCommentsHtml comments)) (commentsList v))
    (refreshButton v).

(** Lines 65-67: the cycle up to its first [await]. *)
Definition showLoading (v : CommentSection) : CommentSection :=
  mkCommentSection (bluesky_uri v)
    (setDisplay "block" (loader v))
    (setDisplay "none" (errorDiv v))
    (setDisplay "none" (commentsList v))
    (refreshButton v).

(** Lines 88-97. *)
Definition catchError (v : CommentSection) (error : Thrown)
    : CommentSection :=
  let errorMessage :=
    match error with
    | ErrorObject message => message
    | OtherThrown => "An unknown error occurred"
    end in
  mkCommentSection (bluesky_uri v)
    (setDisplay "none" (loader v))
    (setContent ("Error loading comments: " ++ errorMessage)
       (setDisplay "block" (errorDiv v)))
    (commentsList v)
    (refreshButton v).

(** Lines 69-97: the cycle once the request has settled. *)
Definition settle (v : CommentSection) (r : Fetched) : CommentSection :=
  match r with
  | NetworkFailure e => catchError v e
  | Response status json =>
      if response_ok status then
        match json with
        | inl e => catchError v e
        | inr data =>
            let comments := threadReplies data in
            let v := renderComments v comments in
            mkCommentSection (bluesky_uri v)
              (setDisplay "none" (loader v))
              (errorDiv v)
              (setDisplay "block" (commentsList v))
              (refreshButton v)
        end
      else
        catchError v (ErrorObject ("HTTP error! status: " ++ showZ status))
  end.

(** Lines 64-98: one whole cycle, no other cycle of the view running
    in between. *)
Definition fetchComments (v : CommentSection) (r : Fetched)
    : CommentSection :=
  settle (showLoading v) r.

End Cycle.

(** Lines 56-58: [initialize] up to the first [await]. *)
Definition initialize (v : CommentSection) : CommentSection :=
  showLoading
    (mkCommentSection (bluesky_uri v) (loader v) (errorDiv v)
       (commentsList v) (addClickListener (refreshButton v))).

(** Lines 32-54: [inl] is the message of the error thrown. *)
Definition construct (container : Container) : string + CommentSection :=
  match dataset_blueskyUri container with
  | None => inl "Bluesky URI is required"
  | Some "" => inl "Bluesky URI is required"
  | Some uri =>
      match comments_loader container, comments_error container,
            comments_list container, refresh_comments container with
      | Some loader, Some errorDiv, Some commentsList, Some refreshButton =>
          inr (initialize
                 (mkCommentSection uri loader errorDiv commentsList
                    refreshButton))
      | _, _, _, _ => inl "Required DOM elements not found"
      end
  end.

(** Lines 206-210: [forEach] runs the constructor on each container in
    document order; an error thrown by one leaves [forEach].  The result
    is the views constructed and the error that escaped, if any. *)
Fixpoint initializeCommentSections (containers : list Container)
    : list CommentSection * option string :=
  match containers with
  | [] => ([], None)
  | container :: rest =>
      match construct container with
      | inl err => ([], Some err)
      | inr v =>
          let (vs, err) := initializeCommentSections rest in
          (v :: vs, err)
      end
  end.

(** ** The refresh timer (part_007, lines 56-62)

    Time is in milliseconds.  [initialize] starts the first cycle, waits
    for it to settle and only then calls [setInterval]. *)

Definition REFRESH_MS : N := (5 * 60 * 1000)%N.

Record Timeline := mkTimeline
  { now : N;
    awaited : option N;          (* when the awaited first cycle settles *)
    interval : option (N * N);   (* period and next due time of the timer *)
    cycles : list N }.           (* start times of the cycles so far *)

(** The view is mounted at [t]; its first request takes [latency]. *)
Definition mount (t latency : N) : Timeline :=
  mkTimeline t (Some (t + latency)%N) None [t].

(** The next thing that happens up to [horizon], if anything. *)
Definition next (horizon : N) (s : Timeline) : option Timeline :=
  match awaited s with
  | Some t =>
      if (t <=? horizon)%N
      then Some (mkTimeline t None (Some (REFRESH_MS, t + REFRESH_MS)%N)
                   (cycles s))
      else None
  | None =>
      match interval s with
      | Some (period, due) =>
          if (due <=? horizon)%N
          then Some (mkTimeline due None (Some (period, due + period)%N)
                       (cycles s ++ [due]))
          else None
      | None => None
      end
  end.

Fixpoint run (fuel : nat) (horizon : N) (s : Timeline) : Timeline :=
  match fuel with
  | O => s
  | S fuel' =>
      match next horizon s with
      | Some s' => run fuel' horizon s'
      | None => s
      end
  end.

(** ** Failures of a request and what the page shows *)

(** The three ways a cycle fails, each with the text of its cause: the
    request itself fails, the status is not a 2xx one, the body does not
    parse.  ([fetch] and [response.json()] reject with Error objects.) *)
Inductive FetchFailure : Fetched -> string -> Prop :=
| TransportError (message : string) :
    FetchFailure (NetworkFailure (ErrorObject message)) message
| BadStatus (status : Z) (json : Thrown + Envelope) :
    response_ok status = false ->
    FetchFailure (Response status json) (showZ status)
| BadBody (status : Z) (message : string) :
    response_ok status = true ->
    FetchFailure (Response status (inl (ErrorObject message))) message.

(** What an element shows on the page: nothing while its display is
    [none]. *)
Definition shown (e : Element) : string :=
  if String.eqb (style_display e) "none" then "" else content e.

(** A container lacks one of the four descendants the constructor needs. *)
Definition missingElement (c : Container) : Prop :=
  comments_loader c = None \/ comments_error c = None \/
  comments_list c = None \/ refresh_comments c = None.

Definition blank : Element := mkElement "" "" 0.

Definition goodContainer : Container :=
  mkContainer (Some "at://did:plc:abc123/app.bsky.feed.post/xyz789")
    (Some blank) (Some blank) (Some blank) (Some blank).

(** The same container without its manual-refresh control. *)
Definition brokenContainer : Container :=
  mkContainer (Some "at://did:plc:abc123/app.bsky.feed.post/xyz789")
    (Some blank) (Some blank) (Some blank) None.

(** A view that shows a thread rendered earlier. *)
Definition staleView : CommentSection :=
  mkCommentSection "at://did:plc:abc123/app.bsky.feed.post/xyz789"
    (mkElement "none" "" 0) (mkElement "none" "" 0)
    (mkElement "block" "<div>rendered earlier</div>" 0) (mkElement "" "" 1).

(** ** A sample thread

    Two direct replies; under the first a chain of replies that reaches
    depth 5; the second is a leaf nobody answered. *)

Definition alice : Author :=
  mkAuthor "https://cdn.bsky.app/img/avatar/alice.jpg" "Alice"
    "alice.bsky.social".

Definition samplePost (key body : string) (answers : option Z) : Post :=
  mkPost ("at://did:plc:abc123/app.bsky.feed.post/" ++ key) alice
    (mkPostRecord body) "2025-06-01T12:00:00.000Z" (Some 4) None answers.

Definition chain5 : BlueskyPost :=
  mkBlueskyPost (samplePost "k1" "first" (Some 1)) (Some [
    mkBlueskyPost (samplePost "k2" "second" (Some 1)) (Some [
      mkBlueskyPost (samplePost "k3" "third" (Some 1)) (Some [
        mkBlueskyPost (samplePost "k4" "fourth" (Some 1)) (Some [
          mkBlueskyPost (samplePost "k5" "fifth" (Some 0)) None ])])])]).

Definition loneReply : BlueskyPost :=
  mkBlueskyPost (samplePost "k6" "alone" (Some 0)) (Some []).

(** A reply whose own replies were not fetched. *)
Definition unfetched : BlueskyPost :=
  mkBlueskyPost (samplePost "k7" "more elsewhere" (Some 2)) None.

Definition sampleThread : list BlueskyPost := [chain5; loneReply].

(** ** Payload text inside the markup *)

(** The markup interpolates the string [s] somewhere, as it is. *)
Inductive Carries (s : string) : Html -> Prop :=
| carries_here : Carries s (InsStr s)
| carries_below (m : Mark) (body : list Html) (h : Html) :
    In h body -> Carries s h -> Carries s (Sub m body).

(** The strings of a post that the templates interpolate. *)
Definition payloadStrings (p : Post) : list string :=
  [ text (record p); displayName (author p); handle (author p);
    avatar (author p); indexedAt p ].

(** A post whose body is markup. *)
Definition markupPost : BlueskyPost :=
  mkBlueskyPost
    (mkPost "at://did:plc:abc123/app.bsky.feed.post/k8" alice
       (mkPostRecord "<img src=x onerror=alert(1)>")
       "2025-06-01T12:00:00.000Z" None None None) None.

(** ** The page that hosts the views

    A container the constructor accepts: a uri that is not empty, and
    the four descendants. *)
Definition usable (c : Container) : Prop :=
  (exists uri, dataset_blueskyUri c = Some uri /\ uri <> "") /\
  ~ missingElement c.

(** The view in its loading state: what [initialize] leaves before the
    first request settles. *)
Definition isLoading (v : CommentSection) : Prop :=
  style_display (loader v) = "block" /\
  style_display (errorDiv v) = "none" /\
  style_display (commentsList v) = "none".

Definition refreshListeners (c : Container) : nat :=
  match refresh_comments c with
  | Some e => clickListeners e
  | None => O
  end.

(** The elements of a view are the descendants of its container: what
    the constructor did to them is found in the container afterwards. *)
Definition attach (v : CommentSection) (c : Container) : Container :=
  mkContainer (dataset_blueskyUri c) (Some (loader v)) (Some (errorDiv v))
    (Some (commentsList v)) (Some (refreshButton v)).

(** [initializeCommentSections] (part_007, lines 206-210) with the
    containers as it leaves them. *)
Fixpoint initializeOn (containers : list Container)
    : list Container * (list CommentSection * option string) :=
  match containers with
  | [] => ([], ([], None))
  | container :: rest =>
      match construct container with
      | inl err => (container :: rest, ([], Some err))
      | inr v =>
          let '(cs, (vs, err)) := initializeOn rest in
          (attach v container :: cs, (v :: vs, err))
      end
  end.

Inductive ReadyState : Type := Loading | Interactive | Complete.

Record Page := mkPage
  { readyState : ReadyState;
    onDOMContentLoaded : nat;   (* listeners that call initializeCommentSections *)
    dom : list Container;
    views : list CommentSection;
    uncaught : list string }.

Definition callInitialize (p : Page) : Page :=
  let '(dom1, (vs, err)) := initializeOn (dom p) in
  mkPage (readyState p) (onDOMContentLoaded p) dom1 (views p ++ vs)
    (uncaught p ++ match err with Some e => [e] | None => [] end).

(** Part_007, lines 212-219: what evaluating the module does. *)
Definition evaluateModule (window : bool) (p : Page) : Page :=
  if window then
    match readyState p with
    | Loading =>
        mkPage Loading (S (onDOMContentLoaded p)) (dom p) (views p)
          (uncaught p)
    | _ => callInitialize p
    end
  else p.

(** The script of the component (src/components/PostHeader.astro, lines
    73-78): the import evaluates the module, then the body calls
    [initializeCommentSections]; the body does not run when the import
    fails. *)
Definition componentScript (p : Page) : Page :=
  let p1 := evaluateModule true p in
  if (length (uncaught p1) =? length (uncaught p))%nat
  then callInitialize p1
  else p1.

(** The document has been parsed: the listeners run. *)
Definition fireDOMContentLoaded (p : Page) : Page :=
  Nat.iter (onDOMContentLoaded p) callInitialize
    (mkPage Interactive O (dom p) (views p) (uncaught p)).

(** The page from the script of the component to the end of loading. *)
Definition loadPage (p : Page) : Page :=
  match readyState p with
  | Loading => fireDOMContentLoaded (componentScript p)
  | _ => componentScript p
  end.

(** The page the component renders for one post. *)
Definition postPage (state : ReadyState) : Page :=
  mkPage state O
    [mkContainer (Some "at://did:plc:abc123/app.bsky.feed.post/xyz789")
       (Some (mkElement "" "Loading comments..." 0))
       (Some (mkElement "none" "" 0)) (Some (mkElement "none" "" 0))
       (Some (mkElement "" "Refresh Comments" 0))]
    [] [].

(** ** The request of a cycle (part_007, line 70)

    [encodeURIComponent] keeps the letters, the digits and the marks
    [- _ . ! ~ * ' ( )] and writes every other character as the percent
    escapes of its UTF-8 bytes, in upper-case hexadecimal.  Strings are
    read here as their UTF-8 bytes, so the function works byte by byte.
    (A string with a lone surrogate has no UTF-8 form; on such a string
    the function throws.) *)

Definition isUnreserved (c : ascii) : bool :=
  let n := nat_of_ascii c in
  ((65 <=? n) && (n <=? 90))%nat || ((97 <=? n) && (n <=? 122))%nat
  || ((48 <=? n) && (n <=? 57))%nat
  || existsb (Ascii.eqb c) (list_ascii_of_string "-_.!~*'()").

Definition hexDigit (n : nat) : ascii :=
  nth n (list_ascii_of_string "0123456789ABCDEF") "0"%char.

Definition percentEscape (c : ascii) : string :=
  let n := nat_of_ascii c in
  String "%" (String (hexDigit (n / 16)) (String (hexDigit (n mod 16)) "")).

Fixpoint encodeURIComponent (s : string) : string :=
  match s with
  | EmptyString => EmptyString
  | String c r =>
      (if isUnreserved c then String c "" else percentEscape c)
      ++ encodeURIComponent r
  end.

Definition endpoint (uri : string) : string :=
  "https://api.bsky.app/xrpc/app.bsky.feed.getPostThread?uri="
  ++ encodeURIComponent uri.

(** Reading percent escapes back, to tell encoded strings apart. *)
Definition hexValue (c : ascii) : option nat :=
  let n := nat_of_ascii c in
  if ((48 <=? n) && (n <=? 57))%nat then Some (n - 48)%nat
  else if ((65 <=? n) && (n <=? 70))%nat then Some (n - 55)%nat
  else None.

Fixpoint percentDecode (s : string) : option string :=
  match s with
  | EmptyString => Some EmptyString
  | String c r =>
      if Ascii.eqb c "%" then
        match r with
        | String h (String l r2) =>
            match hexValue h, hexValue l, percentDecode r2 with
            | Some a, Some b, Some d =>
                Some (String (ascii_of_nat (16 * a + b)) d)
            | _, _, _ => None
            end
        | _ => None
        end
      else option_map (String c) (percentDecode r)
  end.

(** The characters an encoded component is made of. *)
Definition isEncoded (c : ascii) : bool :=
  isUnreserved c || Ascii.eqb c "%"
  || existsb (Ascii.eqb c) (list_ascii_of_string "0123456789ABCDEF").

(** ** The links of the post page

    The component that hosts a view computes the address of the thread
    (src/components/PostHeader.astro, lines 49-51), and the layout of a
    post computes its share links (part_004, lines 14-42). *)

(** [parts[i]] *)
Definition at_index (parts : list string) (i : nat) : option string :=
  nth_error parts i.

Definition blueskyLink (uri : string) : string :=
  let postId := pop (split "/"%char uri) in
  "https://bsky.app/profile/"
  ++ interpolate (at_index (split "/"%char uri) 2)
  ++ "/post/" ++ interpolate postId.

Record ShareUrls := mkShareUrls
  { twitter : string;
    linkedin : string;
    facebook : string;
    reddit : string;
    hackernews : string;
    bluesky : string }.

(** [blueskyUri?: string]: a missing uri and the empty one are falsy. *)
Definition generateSocialShareUrls (url title : string)
    (blueskyUri : option string) : ShareUrls :=
  let encodedUrl := encodeURIComponent url in
  let encodedTitle := encodeURIComponent title in
  let blueskyUrl :=
    match blueskyUri with
    | Some (String _ _ as uri) =>
        let parts := split "/"%char uri in
        let did := at_index parts 2 in
        let postId := at_index parts 4 in
        "https://bsky.app/profile/" ++ interpolate did
        ++ "/post/" ++ interpolate postId
    | _ =>
        let shareText := title ++ " " ++ url in
        "https://bsky.app/intent/compose?text="
        ++ encodeURIComponent shareText
    end in
  mkShareUrls
    ("https://twitter.com/intent/tweet?url=" ++ encodedUrl
     ++ "&text=" ++ encodedTitle)
    ("https://www.linkedin.com/sharing/share-offsite/?url=" ++ encodedUrl)
    ("https://www.facebook.com/sharer/sharer.php?u=" ++ encodedUrl)
    ("https://www.reddit.com/submit?url=" ++ encodedUrl
     ++ "&title=" ++ encodedTitle)
    ("https://news.ycombinator.com/submitlink?u=" ++ encodedUrl
     ++ "&t=" ++ encodedTitle)
    blueskyUrl.

(** An AT uri of a post: [at://], the authority, the collection and the
    record key, none of the three with a slash in it. *)
Definition atUri (did collection rkey : string) : string :=
  "at://" ++ did ++ "/" ++ collection ++ "/" ++ rkey.

(** ** Structured data and reading time (part_004, lines 44-76) *)

Record Crumb := mkCrumb { crumb_name : string; crumb_url : string }.

Record ListItem := mkListItem
  { item_type : string;
    position : nat;
    item_name : string;
    item : string }.

Record BreadcrumbList := mkBreadcrumbList
  { list_context : string;
    list_type : string;
    itemListElement : list ListItem }.

(** [a.map((x, index) => f(x, index))], from [index] on. *)
Fixpoint mapWithIndex {A B : Type} (f : A -> nat -> B) (index : nat)
    (a : list A) : list B :=
  match a with
  | [] => []
  | x :: rest => f x index :: mapWithIndex f (S index) rest
  end.

Definition generateBreadcrumbStructuredData (breadcrumbs : list Crumb)
    : BreadcrumbList :=
  mkBreadcrumbList "https://schema.org" "BreadcrumbList"
    (mapWithIndex
       (fun crumb index =>
          mkListItem "ListItem" (index + 1) (crumb_name crumb)
            (crumb_url crumb))
       0 breadcrumbs).

(** A string as its UTF-16 code units, which is what [trim] and a
    regular expression without the u flag see.  White space is the
    WhiteSpace and LineTerminator code points of ECMAScript: what [\s]
    matches and what [trim] removes. *)
Definition isWhiteSpace (c : N) : bool :=
  existsb (N.eqb c)
    [9; 10; 11; 12; 13; 32; 160; 5760; 8232; 8233; 8239; 8287; 12288;
     65279]%N
  || ((8192 <=? c) && (c <=? 8202))%N.

Fixpoint trimStart (s : list N) : list N :=
  match s with
  | [] => []
  | c :: r => if isWhiteSpace c then trimStart r else s
  end.

Definition trimEnd (s : list N) : list N := rev (trimStart (rev s)).

Definition trim (s : list N) : list N := trimEnd (trimStart s).

(** [s.split(/\s+/)]: the pieces between the runs of white space, an
    empty piece before a run at the start and after a run at the end;
    [inRun] says that the code unit before was white space. *)
Fixpoint splitWhiteSpace (inRun : bool) (s : list N) : list (list N) :=
  match s with
  | [] => [[]]
  | c :: r =>
      if isWhiteSpace c then
        if inRun then splitWhiteSpace true r
        else [] :: splitWhiteSpace true r
      else
        match splitWhiteSpace false r with
        | piece :: pieces => (c :: piece) :: pieces
        | [] => [[c]]
        end
  end.

(** [Math.ceil(wordCount / wordsPerMinute)]: both are whole numbers,
    and a word count is far below the range where the quotient of
    doubles could round across a whole number. *)
Definition getEstimatedReadingTime (content : list N) : nat :=
  let wordsPerMinute := 200%nat in
  let wordCount := length (splitWhiteSpace false (trim content)) in
  ((wordCount + (wordsPerMinute - 1)) / wordsPerMinute)%nat.

(** A text of words: white space, a word, and further words each after
    some white space, and white space at the end. *)
Definition textOf (lead first : list N) (more : list (list N * list N))
    (trail : list N) : list N :=
  (lead ++ first ++ flat_map (fun gw => fst gw ++ snd gw) more ++ trail)%list.

Definition isWord (w : list N) : Prop :=
  w <> [] /\ Forall (fun c => isWhiteSpace c = false) w.

Definition isGap (g : list N) : Prop :=
  g <> [] /\ Forall (fun c => isWhiteSpace c = true) g.

(** ** The sitemap (part_010, lines 66-99)

    String operations of JavaScript on a pattern that is a string. *)

(** [s.includes(pattern)] *)
Fixpoint includes (pattern s : string) : bool :=
  String.prefix pattern s
  || match s with
     | EmptyString => false
     | String _ rest => includes pattern rest
     end.

(** [s.endsWith(suffix)] *)
Fixpoint endsWith (suffix s : string) : bool :=
  String.eqb suffix s
  || match s with
     | EmptyString => false
     | String _ rest => endsWith suffix rest
     end.

Fixpoint skip (n : nat) (s : string) : string :=
  match n, s with
  | S m, String _ rest => skip m rest
  | _, _ => s
  end.

(** [s.replace(pattern, replacement)]: the first occurrence only. *)
Fixpoint replaceFirst (pattern replacement s : string) : string :=
  if String.prefix pattern s
  then replacement ++ skip (String.length pattern) s
  else match s with
       | EmptyString => EmptyString
       | String c rest => String c (replaceFirst pattern replacement rest)
       end.

(** [s.replace(/\/$/, '')]: without the slash at the very end, if any. *)
Fixpoint dropTrailingSlash (s : string) : string :=
  match s with
  | EmptyString => EmptyString
  | String c rest =>
      match rest with
      | EmptyString => if Ascii.eqb c "/" then EmptyString else s
      | _ => String c (dropTrailingSlash rest)
      end
  end.

Module Sitemap.

(** An item of the sitemap; the priority is in tenths. *)
Record Item := mkItem
  { url : string;
    priority : option N;
    changefreq : option string;
    lastmod : option string }.

Section Serialize.

(** [postDates]: slug to entry, the entry's [lastmod] a date or [null];
    and [new Date(d).toISOString()], which throws on a date that does
    not exist. *)
Variable postDates : string -> option (option string).
Variable toISOString : string -> option string.

Definition rate (tenths : N) (freq : string) (item : Item) : Item :=
  mkItem (url item) (Some tenths) (Some freq) (lastmod item).

(** Lines 68-99; [None] is the error thrown. *)
Definition serialize (item : Item) : option Item :=
  let url := url item in
  if String.eqb url "https://tskulbru.dev/"
     || String.eqb url "https://tskulbru.dev"
  then Some (rate 10 "weekly" item)
  else if endsWith "/posts/" url || endsWith "/portfolio/" url
  then Some (rate 9 "weekly" item)
  else if includes "/posts/" url && negb (endsWith "/posts/" url)
  then
    let item := rate 8 "monthly" item in
    let slug :=
      dropTrailingSlash (replaceFirst "https://tskulbru.dev/posts/" "" url) in
    match postDates slug with
    | Some (Some (String _ _ as date)) =>
        match toISOString date with
        | Some iso =>
            Some (mkItem url (priority item) (changefreq item) (Some iso))
        | None => None
        end
    | _ => Some item
    end
  else if includes "/tags/" url
  then Some (rate 5 "weekly" item)
  else if includes "/apps/" url
  then Some (rate 3 "yearly" item)
  else Some (rate 7 "weekly" item).

End Serialize.

(** Line 67. *)
Definition filter (page : string) : bool := negb (includes "/draft/" page).

End Sitemap.

(** * Properties *)

(** ** The identifier translator *)

Lemma append_assoc (a b c : string) : (a ++ b) ++ c = a ++ b ++ c.
Proof. induction a as [|x a IH]; simpl; [reflexivity | now rewrite IH]. Qed.

Section Translator.

Lemma split_not_nil (s : string) : split "/"%char s <> [].
Proof.
  destruct s as [|c r]; simpl; [discriminate|].
  destruct (Ascii.eqb c "/"%char); [discriminate|].
  destruct (split "/"%char r); discriminate.
Qed.

(** Joining the pieces with the separator gives the string back. *)
Lemma concat_split (s : string) :
  String.concat "/" (split "/"%char s) = s.
Proof.
  induction s as [|c r IH]; simpl; [reflexivity|].
  destruct (Ascii.eqb_spec c "/"%char) as [->|Hc].
  - pose proof (split_not_nil r) as Hne.
    destruct (split "/"%char r) as [|x xs] eqn:E; [congruence|].
    simpl. simpl in IH. rewrite IH. reflexivity.
  - pose proof (split_not_nil r) as Hne.
    destruct (split "/"%char r) as [|x xs] eqn:E; [congruence|].
    simpl in *. destruct xs as [|y ys].
    + now subst.
    + rewrite <- IH. reflexivity.
Qed.

Lemma split_noSlash (s : string) : Forall noSlash (split "/"%char s).
Proof.
  induction s as [|c r IH]; simpl.
  - constructor; [|constructor]. intros [].
  - destruct (Ascii.eqb_spec c "/"%char) as [->|Hc].
    + constructor; [intros []|assumption].
    + destruct (split "/"%char r) as [|x xs].
      * constructor; [|constructor]. intros [H|[]]. congruence.
      * inversion IH as [|? ? Hx Hxs]; subst.
        constructor; [|assumption].
        intros [H|H]; [congruence|]. now apply Hx.
Qed.

Lemma pop_last (a : list string) :
  a <> [] -> exists init key, a = (init ++ [key])%list /\ pop a = Some key.
Proof.
  induction a as [|x xs IH]; [congruence|]. intros _.
  destruct xs as [|y ys].
  - exists [], x. split; reflexivity.
  - destruct IH as (init & key & E & Hp); [discriminate|].
    exists (x :: init), key. split.
    + simpl. now rewrite <- E.
    + exact Hp.
Qed.

Lemma concat_snoc (init : list string) (key : string) :
  init <> [] ->
  String.concat "/" (init ++ [key])%list = String.concat "/" init ++ "/" ++ key.
Proof.
  induction init as [|x xs IH]; [congruence|]. intros _.
  destruct xs as [|y ys].
  - reflexivity.
  - change (String.concat "/" ((x :: y :: ys) ++ [key])%list)
      with (x ++ "/" ++ String.concat "/" ((y :: ys) ++ [key])%list).
    rewrite IH by discriminate.
    change (String.concat "/" (x :: y :: ys))
      with (x ++ "/" ++ String.concat "/" (y :: ys)).
    now rewrite !append_assoc.
Qed.

(** What [uri.split('/').pop()] is: the part of [uri] behind its last
    slash, the whole of it when it has none. *)
Lemma pop_split_trailing (uri : string) :
  exists key,
    pop (split "/"%char uri) = Some key /\ noSlash key /\
    (uri = key \/ exists before, uri = before ++ "/" ++ key).
Proof.
  destruct (pop_last _ (split_not_nil uri)) as (init & key & E & Hp).
  exists key. split; [exact Hp|]. split.
  - pose proof (split_noSlash uri) as H. rewrite E in H.
    apply Forall_app in H. destruct H as [_ H]. now inversion H.
  - pose proof (concat_split uri) as H. rewrite E in H.
    destruct init as [|x xs].
    + left. now rewrite <- H.
    + right. exists (String.concat "/" (x :: xs)).
      rewrite <- H. apply concat_snoc. discriminate.
Qed.

End Translator.

(** C5: the translator returns the profile address of the author with the
    trailing path segment of the uri as record key; on the reference
    input it returns the reference address; it is a total function of its
    two arguments, so equal inputs give equal outputs and it never
    raises. *)
Theorem getBlueskyPostUrl_trailing_segment :
  getBlueskyPostUrl "at://did:plc:abc123/app.bsky.feed.post/xyz789"
    "alice.bsky.social"
  = "https://bsky.app/profile/alice.bsky.social/post/xyz789"
  /\ (forall uri handle, exists recordKey,
        getBlueskyPostUrl uri handle
        = "https://bsky.app/profile/" ++ handle ++ "/post/" ++ recordKey
        /\ noSlash recordKey
        /\ (uri = recordKey \/ exists before, uri = before ++ "/" ++ recordKey))
  /\ (forall uri1 handle1 uri2 handle2,
        uri1 = uri2 -> handle1 = handle2 ->
        getBlueskyPostUrl uri1 handle1 = getBlueskyPostUrl uri2 handle2).
Proof.
  split; [reflexivity|]. split.
  - intros uri handle.
    destruct (pop_split_trailing uri) as (key & Hp & Hn & Hu).
    exists key. unfold getBlueskyPostUrl. rewrite Hp. now repeat split.
  - intros; subst; reflexivity.
Qed.

(** ** Lists and trees *)

Section ListFacts.
Context {A B C : Type}.

Lemma filter_flat_map (f : B -> bool) (g : A -> list B) (l : list A) :
  filter f (flat_map g l) = flat_map (fun x => filter f (g x)) l.
Proof.
  induction l as [|x l IH]; simpl; [reflexivity|].
  now rewrite filter_app, IH.
Qed.

Lemma map_flat_map (f : B -> C) (g : A -> list B) (l : list A) :
  map f (flat_map g l) = flat_map (fun x => map f (g x)) l.
Proof.
  induction l as [|x l IH]; simpl; [reflexivity|].
  now rewrite map_app, IH.
Qed.

Lemma flat_map_map (f : B -> list C) (g : A -> B) (l : list A) :
  flat_map f (map g l) = flat_map (fun x => f (g x)) l.
Proof.
  induction l as [|x l IH]; simpl; [reflexivity | now rewrite IH].
Qed.


Lemma flat_map_Forall_ext (f g : A -> list B) (l : list A) :
  Forall (fun x => f x = g x) l -> flat_map f l = flat_map g l.
Proof.
  induction 1 as [|x l Hx _ IH]; simpl; [reflexivity|].
  now rewrite Hx, IH.
Qed.

Lemma flat_map_nil (l : list A) :
  flat_map (fun _ : A => @nil B) l = [].
Proof. induction l; simpl; auto. Qed.

Lemma Forall2_map_r (R : A -> B -> Prop) (f : A -> B) (l : list A) :
  (forall x, In x l -> R x (f x)) -> Forall2 R l (map f l).
Proof.
  induction l as [|x l IH]; intros H; simpl; constructor.
  - apply H. now left.
  - apply IH. intros y Hy. apply H. now right.
Qed.

End ListFacts.

(** Below depth [D] nothing is left of a subtree that starts beyond it. *)
Lemma nodes_beyond (D : nat) (c : BlueskyPost) :
  forall d, (D < d)%nat -> filter (within D) (nodes d c) = [].
Proof.
  induction c as [p|p l IH] using BlueskyPost_nested_ind; intros d Hd;
    simpl; unfold within at 1; simpl;
    (destruct (Nat.leb_spec d D); [lia|]); [reflexivity|].
  rewrite filter_flat_map.
  rewrite (flat_map_Forall_ext _ (fun _ => [])).
  - apply flat_map_nil.
  - eapply Forall_impl; [|exact IH]. intros x Hx. apply Hx. lia.
Qed.

Lemma nodes_beyond_all (D d : nat) (l : list BlueskyPost) :
  (D < d)%nat -> filter (within D) (flat_map (nodes d) l) = [].
Proof.
  intros Hd. rewrite filter_flat_map.
  rewrite (flat_map_Forall_ext _ (fun _ => [])); [apply flat_map_nil|].
  apply Forall_forall. intros x _. now apply nodes_beyond.
Qed.

Lemma nodes_unfold (d : nat) (c : BlueskyPost) :
  nodes d c = (d, c) :: flat_map (nodes (S d)) (children c).
Proof. destruct c as [p [l|]]; reflexivity. Qed.

(** ** Blocks of the pieces the renderers put together *)

Lemma blocks_node (d : nat) (p : Post) (body : list Html) :
  blocks d (Sub (Node p) body)
  = mkBlock d p (ownNumbers body) (ownLinks body)
    :: flat_map (blocks (S d)) body.
Proof. reflexivity. Qed.

Lemma ownNumbers_app (a b : list Html) :
  ownNumbers (a ++ b) = (ownNumbers a ++ ownNumbers b)%list.
Proof. apply flat_map_app. Qed.

Lemma ownLinks_app (a b : list Html) :
  ownLinks (a ++ b) = (ownLinks a ++ ownLinks b)%list.
Proof. apply flat_map_app. Qed.

Section LinkedPieces.

Lemma moreReplies_numbers url count :
  ownNumbers (Linked.moreReplies url count) = [].
Proof. destruct count as [n|]; simpl; [destruct (0 <? n)|]; reflexivity. Qed.

Lemma moreReplies_blocks d url count :
  flat_map (blocks d) (Linked.moreReplies url count) = [].
Proof. destruct count as [n|]; simpl; [destruct (0 <? n)|]; reflexivity. Qed.

Lemma moreReplies_links url count :
  ownLinks (Linked.moreReplies url count)
  = match count with
    | Some n => if 0 <? n then [ViewMore url n] else []
    | None => []
    end.
Proof. destruct count as [n|]; simpl; [destruct (0 <? n)|]; reflexivity. Qed.

Lemma renderRepliesWith_numbers item D l depth url :
  ownNumbers (Linked.renderRepliesWith item D l depth url) = [].
Proof.
  unfold Linked.renderRepliesWith.
  destruct (length l =? 0)%nat; [reflexivity|].
  destruct (D <=? depth)%nat; reflexivity.
Qed.

(** A body is a head, what stands below the node, and a tail; only the
    head shows numbers, only the part below has links and blocks. *)
Lemma reply_body_numbers url date p below :
  ownNumbers below = [] ->
  ownNumbers (Linked.replyHead url date p ++ below ++ Linked.replyTail)
  = [orZero (replyCount p); orZero (repostCount p); orZero (likeCount p)].
Proof.
  intros H. rewrite !ownNumbers_app, H. reflexivity.
Qed.

Lemma comment_body_numbers url date p below :
  ownNumbers below = [] ->
  ownNumbers (Linked.commentHead url date p ++ below ++ Linked.commentTail)
  = [orZero (replyCount p); orZero (repostCount p); orZero (likeCount p)].
Proof.
  intros H. rewrite !ownNumbers_app, H. reflexivity.
Qed.

Lemma reply_body_links url date p below :
  ownLinks (Linked.replyHead url date p ++ below ++ Linked.replyTail)
  = ownLinks below.
Proof.
  rewrite !ownLinks_app.
  change (ownLinks (Linked.replyHead url date p)) with (@nil Link).
  change (ownLinks Linked.replyTail) with (@nil Link).
  simpl. apply app_nil_r.
Qed.

Lemma comment_body_links url date p below :
  ownLinks (Linked.commentHead url date p ++ below ++ Linked.commentTail)
  = ownLinks below.
Proof.
  rewrite !ownLinks_app.
  change (ownLinks (Linked.commentHead url date p)) with (@nil Link).
  change (ownLinks Linked.commentTail) with (@nil Link).
  simpl. apply app_nil_r.
Qed.

Lemma reply_body_blocks d url date p below :
  flat_map (blocks d)
    (Linked.replyHead url date p ++ below ++ Linked.replyTail)
  = flat_map (blocks d) below.
Proof.
  rewrite !flat_map_app.
  change (flat_map (blocks d) (Linked.replyHead url date p))
    with (@nil Block).
  change (flat_map (blocks d) Linked.replyTail) with (@nil Block).
  simpl. apply app_nil_r.
Qed.

Lemma comment_body_blocks d url date p below :
  flat_map (blocks d)
    (Linked.commentHead url date p ++ below ++ Linked.commentTail)
  = flat_map (blocks d) below.
Proof.
  rewrite !flat_map_app.
  change (flat_map (blocks d) (Linked.commentHead url date p))
    with (@nil Block).
  change (flat_map (blocks d) Linked.commentTail) with (@nil Block).
  simpl. apply app_nil_r.
Qed.

(** The replies of a node: nothing for none, one link at the depth
    limit, and the replies themselves, in order, below it. *)
Lemma renderRepliesWith_links item D l depth url :
  ownLinks (Linked.renderRepliesWith item D l depth url)
  = if (length l =? 0)%nat then []
    else if (D <=? depth)%nat then [ContinueThread url] else [].
Proof.
  unfold Linked.renderRepliesWith.
  destruct (length l =? 0)%nat; [reflexivity|].
  destruct (D <=? depth)%nat; reflexivity.
Qed.

Lemma renderRepliesWith_blocks item D l depth url d :
  flat_map (blocks d) (Linked.renderRepliesWith item D l depth url)
  = if (D <=? depth)%nat then []
    else flat_map (fun r => blocks d (item r)) l.
Proof.
  unfold Linked.renderRepliesWith.
  destruct l as [|x l]; simpl length; cbv beta iota.
  - simpl. now destruct (D <=? depth)%nat.
  - change (S (length l) =? 0)%nat with false. cbv iota.
    destruct (D <=? depth)%nat; [reflexivity|].
    cbn [flat_map blocks]. rewrite !flat_map_app, flat_map_map.
    cbn [flat_map blocks app]. now rewrite !app_nil_r.
Qed.

End LinkedPieces.

(** ** What the depth-limited renderer renders *)

Section LinkedBlocks.
Variable fmt : string -> string.
Variable D : nat.

Lemma renderReply_unfold depth p rs :
  Linked.renderReply fmt D depth (mkBlueskyPost p rs)
  = Sub (Node p)
      (Linked.replyHead
         (getBlueskyPostUrl (uri p) (handle (author p)))
         (fmt (indexedAt p)) p
       ++ match rs with
          | Some l =>
              if (0 <? length l)%nat
              then Linked.renderRepliesWith
                     (Linked.renderReply fmt D (S depth)) D l (S depth)
                     (getBlueskyPostUrl (uri p) (handle (author p)))
              else Linked.moreReplies
                     (getBlueskyPostUrl (uri p) (handle (author p)))
                     (replyCount p)
          | None =>
              Linked.moreReplies
                (getBlueskyPostUrl (uri p) (handle (author p)))
                (replyCount p)
          end
       ++ Linked.replyTail).
Proof. reflexivity. Qed.

Lemma filter_nodes_within d c :
  (d <= D)%nat ->
  filter (within D) (nodes d c)
  = (d, c) :: filter (within D) (flat_map (nodes (S d)) (children c)).
Proof.
  intros Hd. rewrite nodes_unfold. simpl. unfold within at 1. simpl.
  destruct (Nat.leb_spec d D); [reflexivity | lia].
Qed.

(** A reply rendered by the callback at [depth] sits at depth
    [S depth]; its blocks are the nodes of its subtree down to the
    limit, each with its counters and its links. *)
Lemma blocks_renderReply (reply : BlueskyPost) :
  forall depth, (depth < D)%nat ->
    blocks (S depth) (Linked.renderReply fmt D depth reply)
    = map (describe D) (filter (within D) (nodes (S depth) reply)).
Proof.
  induction reply as [p|p l IH] using BlueskyPost_nested_ind;
    intros depth Hd; rewrite renderReply_unfold, blocks_node,
      filter_nodes_within by lia; cbn [map]; unfold describe at 1;
      cbn [fst snd post]; unfold counters, linksAt, hasChildren, postUrl;
      cbn [children replies post length].
  - rewrite reply_body_numbers by apply moreReplies_numbers.
    rewrite reply_body_links, reply_body_blocks, moreReplies_links,
      moreReplies_blocks.
    reflexivity.
  - destruct l as [|x l'].
    + cbn [length Nat.ltb Nat.leb Nat.eqb negb flat_map filter map].
      rewrite reply_body_numbers by apply moreReplies_numbers.
      rewrite reply_body_links, reply_body_blocks, moreReplies_links,
        moreReplies_blocks.
      reflexivity.
    + change (0 <? length (x :: l'))%nat with true.
      change (length (x :: l') =? 0)%nat with false.
      cbv iota. cbn [negb].
      rewrite reply_body_numbers by apply renderRepliesWith_numbers.
      rewrite reply_body_links, reply_body_blocks,
        renderRepliesWith_links, renderRepliesWith_blocks.
      change (length (x :: l') =? 0)%nat with false. cbv iota.
      destruct (Nat.leb_spec D (S depth)) as [Hb|Hb].
      * assert ((S depth <? D)%nat = false) as -> by (apply Nat.ltb_ge; lia).
        rewrite nodes_beyond_all by lia. reflexivity.
      * assert ((S depth <? D)%nat = true) as -> by (apply Nat.ltb_lt; lia).
        f_equal.
        rewrite filter_flat_map, map_flat_map.
        apply flat_map_Forall_ext.
        eapply Forall_impl; [|exact IH].
        intros r Hr. apply Hr. lia.
Qed.

Lemma renderComment_unfold c :
  Linked.renderComment fmt c D
  = Sub (Node (post c))
      (Linked.commentHead (postUrl c) (fmt (indexedAt (post c))) (post c)
       ++ match replies c with
          | Some l =>
              if (0 <? length l)%nat
              then Linked.renderRepliesWith (Linked.renderReply fmt D 1)
                     D l 1 (postUrl c)
              else Linked.moreReplies (postUrl c) (replyCount (post c))
          | None => Linked.moreReplies (postUrl c) (replyCount (post c))
          end
       ++ Linked.commentTail).
Proof. reflexivity. Qed.

(** The blocks of a rendered top-level comment: the nodes of its tree
    down to depth [D], in document order, each at its depth, with its
    three counters and its links. *)
Lemma blocks_renderComment (c : BlueskyPost) :
  (1 <= D)%nat ->
  blocks 1 (Linked.renderComment fmt c D)
  = map (describe D) (filter (within D) (nodes 1 c)).
Proof.
  intros HD. rewrite renderComment_unfold, blocks_node,
    filter_nodes_within by lia.
  cbn [map]. unfold describe at 1. cbn [fst snd].
  unfold counters, linksAt, hasChildren. unfold children.
  destruct (replies c) as [[|x l']|].
  - cbn [length Nat.ltb Nat.leb Nat.eqb negb flat_map filter map].
    rewrite comment_body_numbers by apply moreReplies_numbers.
    rewrite comment_body_links, comment_body_blocks, moreReplies_links,
      moreReplies_blocks.
    reflexivity.
  - change (0 <? length (x :: l'))%nat with true.
    change (length (x :: l') =? 0)%nat with false.
    cbv iota. cbn [negb].
    rewrite comment_body_numbers by apply renderRepliesWith_numbers.
    rewrite comment_body_links, comment_body_blocks,
      renderRepliesWith_links, renderRepliesWith_blocks.
    change (length (x :: l') =? 0)%nat with false. cbv iota.
    destruct (Nat.leb_spec D 1) as [Hb|Hb].
    + assert ((1 <? D)%nat = false) as -> by (apply Nat.ltb_ge; lia).
      rewrite nodes_beyond_all by lia. reflexivity.
    + assert ((1 <? D)%nat = true) as -> by (apply Nat.ltb_lt; lia).
      f_equal.
      rewrite filter_flat_map, map_flat_map.
      apply flat_map_Forall_ext, Forall_forall.
      intros r _. apply blocks_renderReply. lia.
  - cbn [length Nat.ltb Nat.leb Nat.eqb negb flat_map filter map].
    rewrite comment_body_numbers by apply moreReplies_numbers.
    rewrite comment_body_links, comment_body_blocks, moreReplies_links,
      moreReplies_blocks.
    reflexivity.
Qed.

End LinkedBlocks.

(** ** What the plain renderer renders *)

Section PlainBlocks.
Variable fmt : string -> string.

Lemma plain_renderRepliesWith_numbers item l :
  ownNumbers (Plain.renderRepliesWith item l) = [].
Proof.
  unfold Plain.renderRepliesWith. now destruct (length l =? 0)%nat.
Qed.

Lemma plain_renderRepliesWith_links item l :
  ownLinks (Plain.renderRepliesWith item l) = [].
Proof.
  unfold Plain.renderRepliesWith. now destruct (length l =? 0)%nat.
Qed.

Lemma plain_renderRepliesWith_blocks item l d :
  flat_map (blocks d) (Plain.renderRepliesWith item l)
  = flat_map (fun r => blocks d (item r)) l.
Proof.
  unfold Plain.renderRepliesWith.
  destruct l as [|x l]; [reflexivity|].
  change (length (x :: l) =? 0)%nat with false. cbv iota.
  cbn [flat_map blocks]. rewrite !flat_map_app, flat_map_map.
  cbn [flat_map blocks app]. now rewrite !app_nil_r.
Qed.

Lemma plain_body d p head below tail :
  ownNumbers head
  = [orZero (replyCount p); orZero (repostCount p); orZero (likeCount p)] ->
  ownLinks head = [] -> flat_map (blocks (S d)) head = [] ->
  ownNumbers tail = [] -> ownLinks tail = [] ->
  flat_map (blocks (S d)) tail = [] ->
  ownNumbers below = [] -> ownLinks below = [] ->
  blocks d (Sub (Node p) (head ++ below ++ tail))
  = mkBlock d p
      [orZero (replyCount p); orZero (repostCount p); orZero (likeCount p)]
      []
    :: flat_map (blocks (S d)) below.
Proof.
  intros Hn Hl Hb Tn Tl Tb Bn Bl.
  rewrite blocks_node, !ownNumbers_app, !ownLinks_app, !flat_map_app.
  rewrite Hn, Hl, Hb, Tn, Tl, Tb, Bn, Bl. cbn [app].
  now rewrite app_nil_r.
Qed.

Lemma plain_blocks_renderReply (reply : BlueskyPost) :
  forall d, blocks d (Plain.renderReply fmt reply)
            = map describePlain (nodes d reply).
Proof.
  induction reply as [p|p l IH] using BlueskyPost_nested_ind; intros d.
  - reflexivity.
  - change (Plain.renderReply fmt (mkBlueskyPost p (Some l)))
      with (Sub (Node p)
              (Plain.replyHead (fmt (indexedAt p)) p
               ++ Plain.renderRepliesWith (Plain.renderReply fmt) l
               ++ Plain.replyTail)).
    rewrite plain_body; try reflexivity;
      auto using plain_renderRepliesWith_numbers,
        plain_renderRepliesWith_links.
    rewrite plain_renderRepliesWith_blocks.
    cbn [nodes map]. unfold describePlain at 1. cbn [fst snd post].
    unfold counters. cbn [post]. f_equal.
    rewrite map_flat_map. apply flat_map_Forall_ext.
    eapply Forall_impl; [|exact IH]. intros r Hr. apply Hr.
Qed.

Lemma plain_blocks_renderComment (c : BlueskyPost) :
  blocks 1 (Plain.renderComment fmt c) = map describePlain (nodes 1 c).
Proof.
  destruct c as [p rs].
  change (Plain.renderComment fmt (mkBlueskyPost p rs))
    with (Sub (Node p)
            (Plain.commentHead (fmt (indexedAt p)) p
             ++ Plain.renderReplies fmt rs
             ++ Plain.commentTail)).
  destruct rs as [l|]; [|reflexivity].
  change (Plain.renderReplies fmt (Some l))
    with (Plain.renderRepliesWith (Plain.renderReply fmt) l).
  rewrite plain_body; try reflexivity;
    auto using plain_renderRepliesWith_numbers,
      plain_renderRepliesWith_links.
  rewrite plain_renderRepliesWith_blocks.
  cbn [nodes map]. unfold describePlain at 1. cbn [fst snd post].
  unfold counters. cbn [post]. f_equal.
  rewrite map_flat_map. apply flat_map_Forall_ext, Forall_forall.
  intros r _. apply plain_blocks_renderReply.
Qed.

End PlainBlocks.

(** ** The comment list as a whole *)

Section Forest.
Variable fmt : string -> string.

Lemma blocks_linked_renderComments (comments : list BlueskyPost) :
  flat_map (blocks 1) (Linked.renderComments fmt comments)
  = map (describe Linked.defaultMaxDepth)
      (filter (within Linked.defaultMaxDepth)
         (flat_map (nodes 1) comments)).
Proof.
  unfold Linked.renderComments. destruct comments as [|c cs];
    [reflexivity|].
  change (length (c :: cs) =? 0)%nat with false. cbv iota.
  rewrite flat_map_map, filter_flat_map, map_flat_map.
  apply flat_map_Forall_ext, Forall_forall. intros x _.
  apply blocks_renderComment. unfold Linked.defaultMaxDepth. lia.
Qed.

Lemma blocks_plain_renderComments (comments : list BlueskyPost) :
  flat_map (blocks 1) (Plain.renderComments fmt comments)
  = map describePlain (flat_map (nodes 1) comments).
Proof.
  unfold Plain.renderComments. destruct comments as [|c cs];
    [reflexivity|].
  change (length (c :: cs) =? 0)%nat with false. cbv iota.
  rewrite flat_map_map, map_flat_map.
  apply flat_map_Forall_ext, Forall_forall. intros x _.
  apply plain_blocks_renderComment.
Qed.

End Forest.

(** ** Every link belongs to a block *)

Section LinkedLinks.
Variable fmt : string -> string.
Variable D : nat.










End LinkedLinks.

(** ** The depth limit and the continuation links *)





(** The sample thread at depth limit 3: the chain is rendered down to
    its third reply, which carries the one continuation link; the replies
    at depth 4 and 5 are not rendered; the lone reply carries no link. *)
Example sampleThread_blocks :
  map (fun b => (b_depth b, text (record (b_post b)), b_links b))
    (flat_map (blocks 1) (Linked.renderComments (fun s => s) sampleThread))
  = [ (1%nat, "first", []);
      (2%nat, "second", []);
      (3%nat, "third",
       [ContinueThread
          "https://bsky.app/profile/alice.bsky.social/post/k3"]);
      (1%nat, "alone", []) ].
Proof. reflexivity. Qed.

Example unfetched_blocks :
  map (fun b => (b_depth b, b_counters b, b_links b))
    (blocks 1 (Linked.renderComment (fun s => s) unfetched 3))
  = [ (1%nat, [2; 0; 4],
       [ViewMore "https://bsky.app/profile/alice.bsky.social/post/k7" 2]) ].
Proof. reflexivity. Qed.

(** ** Order and counters *)


Lemma orZero_present (n : Z) : orZero (Some n) = n.
Proof.
  unfold orZero. destruct (Z.eqb_spec n 0); congruence.
Qed.

(** C7: every rendered block shows exactly three counters, reply, repost
    and like in this order; a counter missing from the payload shows as
    0, one that is present shows as it is, so none is negative when the
    payload's counts are counts. *)
Theorem counters_default_to_zero
    (fmt : string -> string) (comments : list BlueskyPost) :
  Forall2
    (fun x b =>
       b_post b = post (snd x) /\
       b_counters b
       = [ orZero (replyCount (post (snd x)));
           orZero (repostCount (post (snd x)));
           orZero (likeCount (post (snd x))) ] /\
       Forall
         (fun o =>
            (o = None -> orZero o = 0 /\ showZ (orZero o) = "0") /\
            (forall n, o = Some n -> orZero o = n) /\
            (nonNegative o -> 0 <= orZero o))
         [ replyCount (post (snd x));
           repostCount (post (snd x));
           likeCount (post (snd x)) ])
    (filter (within Linked.defaultMaxDepth) (flat_map (nodes 1) comments))
    (flat_map (blocks 1) (Linked.renderComments fmt comments)).
Proof.
  rewrite blocks_linked_renderComments. apply Forall2_map_r.
  intros [d n] _. unfold describe, counters. cbn [fst snd b_post b_counters].
  split; [reflexivity|]. split; [reflexivity|].
  assert (forall o,
            (o = None -> orZero o = 0 /\ showZ (orZero o) = "0") /\
            (forall k, o = Some k -> orZero o = k) /\
            (nonNegative o -> 0 <= orZero o)) as H.
  { intros o. split; [intros ->; split; reflexivity|]. split.
    - intros k ->. apply orZero_present.
    - destruct o as [k|]; [|cbn; lia].
      intros Hk. rewrite orZero_present. now apply Hk. }
  constructor; [apply H|]. constructor; [apply H|].
  constructor; [apply H|]. constructor.
Qed.

(** A present counter is shown as it comes: the script does not bound
    it from below. *)
Example present_counter_shown_as_is :
  orZero (Some (-2)) = -2 /\ orZero (Some 0) = 0 /\ orZero (Some 7) = 7.
Proof. repeat split. Qed.

(** ** The two files *)

Lemma filter_map_comm {A B : Type} (f : B -> bool) (g : A -> B) (l : list A) :
  filter f (map g l) = map g (filter (fun x => f (g x)) l).
Proof.
  induction l as [|x l IH]; simpl; [reflexivity|].
  destruct (f (g x)); simpl; now rewrite IH.
Qed.

(** C4, as the two files have it: they render the same placeholder for
    an empty list, and for every list of reply trees the blocks of the
    first file, links left aside, are the blocks of the second file down
    to the depth limit, in the same order, at the same depth, with the
    same counters.  The second file renders the deeper nodes too and has
    no links. *)
Theorem renderers_agree_down_to_depth_limit
    (fmt : string -> string) (comments : list BlueskyPost) :
  Linked.renderComments fmt [] = Plain.renderComments fmt []
  /\ map unlinked
       (flat_map (blocks 1) (Linked.renderComments fmt comments))
     = filter (shallow Linked.defaultMaxDepth)
         (flat_map (blocks 1) (Plain.renderComments fmt comments))
  /\ Forall (fun b => b_links b = [])
       (flat_map (blocks 1) (Plain.renderComments fmt comments)).
Proof.
  split; [reflexivity|].
  rewrite blocks_linked_renderComments, blocks_plain_renderComments.
  split.
  - rewrite filter_map_comm, map_map. apply map_ext. now intros [d n].
  - apply Forall_map, Forall_forall. now intros [d n] _.
Qed.

(** The markup of the two files differs already on a single reply
    without answers, and the second file renders the replies beyond the
    depth limit that the first leaves out. *)
Lemma renderers_differ :
  String.eqb
    (join (Linked.renderComments (fun s => s) [loneReply]))
    (join (Plain.renderComments (fun s => s) [loneReply])) = false
  /\ length (flat_map (blocks 1)
               (Linked.renderComments (fun s => s) sampleThread)) = 4%nat
  /\ length (flat_map (blocks 1)
               (Plain.renderComments (fun s => s) sampleThread)) = 6%nat.
Proof. split; [vm_compute; reflexivity|]. split; reflexivity. Qed.

(** ** The fetch cycle *)

Lemma occursIn_suffix (a s : string) : occursIn s (a ++ s).
Proof.
  exists a, "". f_equal. induction s as [|c s IH]; simpl; congruence.
Qed.

(** C6: a response whose reply array is empty or missing (or whose
    thread is missing) leaves the list region displayed with the one
    no-comments-yet placeholder as its whole content, the error region
    and the loading indicator hidden; so it is in both files. *)
Theorem empty_thread_shows_placeholder
    (fmt : string -> string) (v : CommentSection) (status : Z)
    (data : Envelope) :
  response_ok status = true ->
  (thread data = None \/
   exists t, thread data = Some t /\
             (thread_replies t = None \/ thread_replies t = Some [])) ->
  Forall
    (fun render =>
       render [] = [Lit (q "<p class=`no-comments`>No comments yet. Be the first to comment!</p>")] /\
       let v1 := fetchComments render v (Response status (inr data)) in
       content (commentsList v1)
       = q "<p class=`no-comments`>No comments yet. Be the first to comment!</p>" /\
       style_display (commentsList v1) = "block" /\
       style_display (errorDiv v1) = "none" /\
       style_display (loader v1) = "none")
    [Linked.renderComments fmt; Plain.renderComments fmt].
Proof.
  intros Hok Hempty.
  assert (threadReplies data = []) as He.
  { unfold threadReplies.
    destruct Hempty as [->|(t & -> & [->| ->])]; reflexivity. }
  repeat constructor; cbn [fetchComments settle]; rewrite ?Hok, ?He;
    reflexivity.
Qed.

Lemma empty_thread_shows_placeholder_sample :
  response_ok 200 = true /\
  Forall
    (fun render =>
       render [] = [Lit (q "<p class=`no-comments`>No comments yet. Be the first to comment!</p>")] /\
       let v1 := fetchComments render staleView
                   (Response 200 (inr (mkEnvelope (Some (mkThread (Some [])))))) in
       content (commentsList v1)
       = q "<p class=`no-comments`>No comments yet. Be the first to comment!</p>" /\
       style_display (commentsList v1) = "block" /\
       style_display (errorDiv v1) = "none" /\
       style_display (loader v1) = "none")
    [Linked.renderComments (fun s => s); Plain.renderComments (fun s => s)].
Proof.
  split; [reflexivity|].
  apply (empty_thread_shows_placeholder (fun s => s) staleView 200
           (mkEnvelope (Some (mkThread (Some []))))).
  - reflexivity.
  - right. eexists. split; [reflexivity|]. now right.
Defined.

(** C3: a cycle whose request fails, by a transport error, a status
    that is not 2xx or a body that does not parse, ends with the loading
    indicator hidden, the error region displayed with a message that
    contains the text of the cause (the status code for a bad status),
    and the list region hidden, so that nothing rendered earlier is
    shown; a successful refresh after it hides the error region and
    displays the list region, whose content is then the rendering of the
    replies that the new response carries (of no replies, when the
    response has no thread or the thread no replies). *)
Theorem failed_cycle_shows_error
    (render : list BlueskyPost -> list Html) (v : CommentSection)
    (r : Fetched) (cause : string) :
  FetchFailure r cause ->
  let v1 := fetchComments render v r in
  style_display (loader v1) = "none" /\
  style_display (errorDiv v1) = "block" /\
  (exists message,
     content (errorDiv v1) = "Error loading comments: " ++ message /\
     occursIn cause message) /\
  style_display (commentsList v1) = "none" /\
  shown (commentsList v1) = "" /\
  (forall status data,
     response_ok status = true ->
     let v2 := fetchComments render v1 (Response status (inr data)) in
     style_display (loader v2) = "none" /\
     style_display (errorDiv v2) = "none" /\
     shown (errorDiv v2) = "" /\
     style_display (commentsList v2) = "block" /\
     (forall replies,
        data = mkEnvelope (Some (mkThread (Some replies))) ->
        shown (commentsList v2) = join (render replies)) /\
     (data = mkEnvelope None \/ data = mkEnvelope (Some (mkThread None)) ->
      shown (commentsList v2) = join (render []))).
Proof.
  intros Hf.
  assert (forall w status data, response_ok status = true ->
            let v2 := fetchComments render w (Response status (inr data)) in
            style_display (loader v2) = "none" /\
            style_display (errorDiv v2) = "none" /\
            shown (errorDiv v2) = "" /\
            style_display (commentsList v2) = "block" /\
            (forall replies,
               data = mkEnvelope (Some (mkThread (Some replies))) ->
               shown (commentsList v2) = join (render replies)) /\
            (data = mkEnvelope None \/
             data = mkEnvelope (Some (mkThread None)) ->
             shown (commentsList v2) = join (render [])))
    as Hnext.
  { intros w status data Hok. cbn [fetchComments settle]. rewrite Hok.
    do 4 (split; [reflexivity|]). split.
    - intros replies ->. reflexivity.
    - intros [->| ->]; reflexivity. }
  destruct Hf as [message|status json Hbad|status message Hok];
    cbn [fetchComments settle]; rewrite ?Hbad, ?Hok;
    (split; [reflexivity|]); (split; [reflexivity|]);
    (split; [eexists; split; [reflexivity|]
            | split; [reflexivity|]; split; [reflexivity|apply Hnext]]).
  - apply (occursIn_suffix "").
  - apply occursIn_suffix.
  - apply (occursIn_suffix "").
Qed.

(** The reference scenario: a view that shows an earlier thread gets an
    HTTP 500; the refresh after it brings a thread of one reply, and the
    list then shows that reply and nothing of the earlier thread. *)
Lemma failed_cycle_shows_error_http500 :
  FetchFailure (Response 500 (inr (mkEnvelope None))) "500" /\
  let v1 := fetchComments (Linked.renderComments (fun s => s)) staleView
              (Response 500 (inr (mkEnvelope None))) in
  content (errorDiv v1) = "Error loading comments: HTTP error! status: 500" /\
  style_display (loader v1) = "none" /\
  style_display (errorDiv v1) = "block" /\
  shown (commentsList v1) = "" /\
  let v2 := fetchComments (Linked.renderComments (fun s => s)) v1
              (Response 200
                 (inr (mkEnvelope (Some (mkThread (Some [loneReply])))))) in
  style_display (loader v2) = "none" /\
  shown (errorDiv v2) = "" /\
  style_display (commentsList v2) = "block" /\
  shown (commentsList v2)
  = flatten (Linked.renderComment (fun s => s) loneReply 3) /\
  includes "alone" (shown (commentsList v2)) = true /\
  includes "rendered earlier" (shown (commentsList v2)) = false.
Proof.
  assert (FetchFailure (Response 500 (inr (mkEnvelope None))) "500") as Hf.
  { apply (BadStatus 500). reflexivity. }
  split; [exact Hf|].
  pose proof (failed_cycle_shows_error (Linked.renderComments (fun s => s))
                staleView _ _ Hf) as (Hl & He & _ & _ & Hs & Hnext).
  split; [reflexivity|]. split; [exact Hl|]. split; [exact He|].
  split; [exact Hs|].
  destruct (Hnext 200 (mkEnvelope (Some (mkThread (Some [loneReply]))))
              eq_refl) as (Hl2 & _ & He2 & Hd2 & Hnew & _).
  split; [exact Hl2|]. split; [exact He2|]. split; [exact Hd2|].
  split; [rewrite (Hnew [loneReply] eq_refl); reflexivity|].
  split; vm_compute; reflexivity.
Defined.

(** The failed cycle hides the list region; its markup stays in the
    hidden element until a later successful cycle replaces it. *)
Example failed_cycle_hides_the_list :
  let v1 := fetchComments (Linked.renderComments (fun s => s)) staleView
              (Response 500 (inr (mkEnvelope None))) in
  content (commentsList v1) = "<div>rendered earlier</div>" /\
  style_display (commentsList v1) = "none" /\
  shown (commentsList v1) = "".
Proof. repeat split. Qed.

(** ** Initialisation of the views of a page *)

Lemma construct_missing_element (c : Container) :
  missingElement c -> exists err, construct c = inl err.
Proof.
  intros Hm. unfold construct. unfold missingElement in Hm.
  destruct (dataset_blueskyUri c) as [[|ch u]|]; try (eexists; reflexivity).
  destruct (comments_loader c), (comments_error c), (comments_list c),
    (refresh_comments c); try (eexists; reflexivity).
  destruct Hm as [H|[H|[H|H]]]; discriminate.
Qed.

Lemma initializeCommentSections_app (before : list Container)
    (views : list CommentSection) (rest : list Container) :
  map construct before = map inr views ->
  initializeCommentSections (before ++ rest)
  = (views ++ fst (initializeCommentSections rest),
     snd (initializeCommentSections rest))%list.
Proof.
  revert views. induction before as [|c cs IH]; intros [|v vs] H;
    cbn [map] in H; try discriminate.
  - cbn [app]. now destruct (initializeCommentSections rest).
  - injection H as Hc Hcs.
    cbn [app initializeCommentSections]. rewrite Hc, (IH vs Hcs).
    reflexivity.
Qed.

(** C2, as the code has it: a container that lacks a required descendant
    makes its constructor throw, so its view never starts; the error
    leaves the loop over the containers, so the views of the containers
    before it in document order are constructed and running, and neither
    the failing container nor any container after it gets a view. *)
Theorem initialization_stops_at_first_failure
    (before : list Container) (views : list CommentSection)
    (broken : Container) (after : list Container) :
  map construct before = map inr views ->
  missingElement broken ->
  exists err,
    construct broken = inl err /\
    initializeCommentSections (before ++ broken :: after)
    = (views, Some err).
Proof.
  intros Hb Hm. destruct (construct_missing_element broken Hm) as [err He].
  exists err. split; [exact He|].
  rewrite (initializeCommentSections_app before views) by exact Hb.
  cbn [initializeCommentSections]. rewrite He. cbn [fst snd].
  now rewrite app_nil_r.
Qed.

Lemma initialization_stops_at_first_failure_sample :
  map construct [goodContainer]
  = map inr [initialize
               (mkCommentSection
                  "at://did:plc:abc123/app.bsky.feed.post/xyz789"
                  blank blank blank blank)] /\
  missingElement brokenContainer /\
  exists err,
    construct brokenContainer = inl err /\
    initializeCommentSections
      ([goodContainer] ++ brokenContainer :: [goodContainer])
    = ([initialize
          (mkCommentSection
             "at://did:plc:abc123/app.bsky.feed.post/xyz789"
             blank blank blank blank)], Some err).
Proof.
  assert (missingElement brokenContainer) as Hm
    by (right; right; right; reflexivity).
  split; [reflexivity|]. split; [exact Hm|].
  apply (initialization_stops_at_first_failure [goodContainer] _
           brokenContainer [goodContainer]); [reflexivity | exact Hm].
Defined.

(** A page whose first container lacks its refresh control and whose
    second container is complete: the second, which would construct
    well by itself, is never initialised. *)
Lemma later_container_not_initialized :
  missingElement brokenContainer
  /\ (exists v, construct goodContainer = inr v
                /\ initializeCommentSections [goodContainer] = ([v], None))
  /\ initializeCommentSections [brokenContainer; goodContainer]
     = ([], Some "Required DOM elements not found").
Proof.
  split; [right; right; right; reflexivity|].
  split; [eexists; split; reflexivity | reflexivity].
Qed.

(** ** The refresh timer *)

Lemma run_settled (fuel : nat) (horizon now period due : N)
    (started : list N) :
  (horizon < due)%N ->
  run fuel horizon (mkTimeline now None (Some (period, due)) started)
  = mkTimeline now None (Some (period, due)) started.
Proof.
  intros H. destruct fuel as [|fuel]; [reflexivity|].
  cbn [run next awaited interval].
  destruct (N.leb_spec due horizon); [lia | reflexivity].
Qed.

Lemma run_waiting (fuel : nat) (horizon now settles : N) (started : list N) :
  (horizon < settles)%N ->
  run fuel horizon (mkTimeline now (Some settles) None started)
  = mkTimeline now (Some settles) None started.
Proof.
  intros H. destruct fuel as [|fuel]; [reflexivity|].
  cbn [run next awaited].
  destruct (N.leb_spec settles horizon); [lia | reflexivity].
Qed.

Lemma run_resume (fuel : nat) (horizon now settles : N)
    (started : list N) :
  (settles <= horizon)%N ->
  run (S fuel) horizon (mkTimeline now (Some settles) None started)
  = run fuel horizon
      (mkTimeline settles None
         (Some (REFRESH_MS, (settles + REFRESH_MS)%N)) started).
Proof.
  intros H. cbn [run next awaited cycles].
  destruct (N.leb_spec settles horizon); [reflexivity | lia].
Qed.

Lemma run_tick (fuel : nat) (horizon now period due : N)
    (started : list N) :
  (due <= horizon)%N ->
  run (S fuel) horizon (mkTimeline now None (Some (period, due)) started)
  = run fuel horizon
      (mkTimeline due None (Some (period, (due + period)%N))
         (started ++ [due])).
Proof.
  intros H. cbn [run next awaited interval cycles].
  destruct (N.leb_spec due horizon); [reflexivity | lia].
Qed.

(** C8, as the code has it: mounting a view starts one cycle at once;
    the timer is set when that first cycle has settled, with a period of
    5 minutes; so with no manual trigger there is exactly one cycle at
    mount time, no other before 5 minutes after the first cycle has
    settled, exactly one then, and one more 5 minutes later. *)
Theorem second_cycle_five_minutes_after_first_settles
    (t latency : N) (fuel : nat) :
  (3 <= fuel)%nat ->
  cycles (mount t latency) = [t]
  /\ (forall horizon, (horizon < t + latency + REFRESH_MS)%N ->
        cycles (run fuel horizon (mount t latency)) = [t])
  /\ cycles (run fuel (t + latency + REFRESH_MS) (mount t latency))
     = [t; (t + latency + REFRESH_MS)%N]
  /\ cycles (run fuel (t + latency + 2 * REFRESH_MS) (mount t latency))
     = [t; (t + latency + REFRESH_MS)%N; (t + latency + 2 * REFRESH_MS)%N]
  /\ interval (run fuel (t + latency) (mount t latency))
     = Some (REFRESH_MS, (t + latency + REFRESH_MS)%N).
Proof.
  intros Hfuel.
  destruct fuel as [|[|[|fuel]]]; try lia. clear Hfuel.
  assert (0 < REFRESH_MS)%N as HR by reflexivity.
  unfold mount.
  split; [reflexivity|]. split; [|split; [|split]].
  - intros horizon Hh.
    destruct (N.ltb_spec horizon (t + latency)) as [Hw|Hw].
    + now rewrite run_waiting.
    + rewrite run_resume by assumption. now rewrite run_settled.
  - rewrite run_resume, run_tick by lia. now rewrite run_settled by lia.
  - replace (t + latency + 2 * REFRESH_MS)%N
      with (t + latency + REFRESH_MS + REFRESH_MS)%N by lia.
    rewrite run_resume, run_tick, run_tick by lia.
    now rewrite run_settled by lia.
  - rewrite run_resume by lia. now rewrite run_settled by lia.
Qed.

Lemma second_cycle_five_minutes_after_first_settles_sample :
  (3 <= 3)%nat /\
  cycles (run 3 (0 + 250 + REFRESH_MS) (mount 0 250))
  = [0%N; (0 + 250 + REFRESH_MS)%N].
Proof.
  split; [lia|].
  apply (second_cycle_five_minutes_after_first_settles 0 250 3). lia.
Defined.

(** A request that takes a quarter of a second: up to the fifth minute
    after mounting only the first cycle has started, none starts at the
    fifth minute; the second starts a quarter of a second after it. *)
Lemma no_cycle_at_five_minutes :
  cycles (run 10 REFRESH_MS (mount 0 250)) = [0%N]
  /\ cycles (run 10 (REFRESH_MS + 250) (mount 0 250))
     = [0%N; 300250%N].
Proof. split; reflexivity. Qed.

(** * Further properties of the comment section *)

(** ** The fetch cycle, whatever the outcome *)

(** X1: a cycle that runs on its own ends, whatever the request came to
    (also a thrown value that is no Error), with the loading indicator
    hidden and exactly one of the error region and the list region
    displayed. *)
Theorem cycle_ends_with_one_region_displayed
    (render : list BlueskyPost -> list Html) (v : CommentSection)
    (r : Fetched) :
  let v1 := fetchComments render v r in
  style_display (loader v1) = "none" /\
  ((style_display (errorDiv v1) = "block" /\
    style_display (commentsList v1) = "none") \/
   (style_display (errorDiv v1) = "none" /\
    style_display (commentsList v1) = "block")).
Proof.
  destruct r as [e|status [e|data]]; cbn [fetchComments settle];
    try destruct (response_ok status);
    (split; [reflexivity|]);
    first [left; split; reflexivity | right; split; reflexivity].
Qed.

(** X2: running a cycle again with the same outcome changes nothing: the
    view is as it was after the first of the two cycles. *)
Theorem cycle_is_idempotent
    (render : list BlueskyPost -> list Html) (v : CommentSection)
    (r : Fetched) :
  fetchComments render (fetchComments render v r) r
  = fetchComments render v r.
Proof.
  destruct r as [e|status [e|data]]; cbn [fetchComments settle];
    try destruct (response_ok status); reflexivity.
Qed.

(** X3: a cycle never touches the thread uri of the view nor its refresh
    control, nor the content of the loading indicator; a cycle that ends
    in the error region leaves the markup of the list as it was, and one
    that ends in the list region leaves the text of the error region as
    it was. *)
Theorem cycle_frame
    (render : list BlueskyPost -> list Html) (v : CommentSection)
    (r : Fetched) :
  let v1 := fetchComments render v r in
  bluesky_uri v1 = bluesky_uri v /\
  refreshButton v1 = refreshButton v /\
  content (loader v1) = content (loader v) /\
  clickListeners (loader v1) = clickListeners (loader v) /\
  (style_display (errorDiv v1) = "block" ->
   content (commentsList v1) = content (commentsList v)) /\
  (style_display (commentsList v1) = "block" ->
   content (errorDiv v1) = content (errorDiv v)).
Proof.
  destruct r as [e|status [e|data]]; cbn [fetchComments settle];
    try destruct (response_ok status);
    repeat split; try reflexivity; cbn; discriminate.
Qed.

(** ** Cycles that overlap *)

(** X4: when two cycles of a view are under way at once and both
    requests succeed, the list shows the data of the request that
    settles last, also when that request was the one sent first. *)
Theorem last_settled_response_is_shown
    (render : list BlueskyPost -> list Html) (v : CommentSection)
    (status1 status2 : Z) (older newer : Envelope) :
  response_ok status1 = true -> response_ok status2 = true ->
  let bothStarted := showLoading (showLoading v) in
  let newerSettled := settle render bothStarted (Response status2 (inr newer)) in
  let olderSettled := settle render newerSettled (Response status1 (inr older)) in
  content (commentsList newerSettled) = join (render (threadReplies newer)) /\
  content (commentsList olderSettled) = join (render (threadReplies older)) /\
  style_display (commentsList olderSettled) = "block".
Proof.
  intros H1 H2. cbn [settle]. rewrite H1, H2. repeat split.
Qed.

Lemma last_settled_response_is_shown_sample :
  response_ok 200 = true /\
  let render := Linked.renderComments (fun s => s) in
  let older := mkEnvelope (Some (mkThread (Some []))) in
  let newer := mkEnvelope (Some (mkThread (Some sampleThread))) in
  content
    (commentsList
       (settle render
          (settle render (showLoading (showLoading staleView))
             (Response 200 (inr newer)))
          (Response 200 (inr older))))
  = join (render []).
Proof.
  split; [reflexivity|].
  apply (last_settled_response_is_shown (Linked.renderComments (fun s => s))
           staleView 200 200); reflexivity.
Defined.

(** X5: when two cycles of a view are under way at once, one request
    fails and the other succeeds, the view ends, in either order of
    settling, with the error region and the list region both
    displayed. *)
Theorem overlapping_cycles_show_error_and_list
    (render : list BlueskyPost -> list Html) (v : CommentSection)
    (status : Z) (data : Envelope) (failure : Fetched) (cause : string) :
  response_ok status = true -> FetchFailure failure cause ->
  let bothStarted := showLoading (showLoading v) in
  let success := Response status (inr data) in
  Forall
    (fun v2 =>
       style_display (loader v2) = "none" /\
       style_display (errorDiv v2) = "block" /\
       style_display (commentsList v2) = "block" /\
       content (commentsList v2) = join (render (threadReplies data)))
    [ settle render (settle render bothStarted success) failure;
      settle render (settle render bothStarted failure) success ].
Proof.
  intros Hok Hf. cbv zeta.
  destruct Hf as [message|status' json Hbad|status' message Hok'];
    cbn [settle]; rewrite ?Hok, ?Hbad, ?Hok';
    repeat constructor.
Qed.

Lemma overlapping_cycles_show_error_and_list_sample :
  response_ok 200 = true /\
  FetchFailure (NetworkFailure (ErrorObject "Failed to fetch"))
    "Failed to fetch" /\
  let render := Linked.renderComments (fun s => s) in
  let v2 := settle render
              (settle render (showLoading (showLoading staleView))
                 (Response 200 (inr (mkEnvelope None))))
              (NetworkFailure (ErrorObject "Failed to fetch")) in
  style_display (errorDiv v2) = "block" /\
  style_display (commentsList v2) = "block".
Proof.
  assert (FetchFailure (NetworkFailure (ErrorObject "Failed to fetch"))
            "Failed to fetch") as Hf by constructor.
  split; [reflexivity|]. split; [exact Hf|].
  pose proof (overlapping_cycles_show_error_and_list
                (Linked.renderComments (fun s => s)) staleView 200
                (mkEnvelope None) _ _ eq_refl Hf) as H.
  apply Forall_inv in H. destruct H as (_ & He & Hl & _).
  split; [exact He | exact Hl].
Defined.

(** ** The depth limit, once more *)

Lemma filter_filter_within (D D' : nat) (l : list (nat * BlueskyPost)) :
  (D <= D')%nat ->
  filter (within D) (filter (within D') l) = filter (within D) l.
Proof.
  intros H. induction l as [|x l IH]; simpl; [reflexivity|].
  destruct (within D' x) eqn:E'; simpl; destruct (within D x) eqn:E;
    rewrite ?IH; try reflexivity.
  unfold within in E, E'. apply Nat.leb_le in E. apply Nat.leb_gt in E'. lia.
Qed.

(** X6: raising the depth limit only adds deeper blocks: what is
    rendered at limit D is what is rendered at a higher limit down to
    depth D, in the same order, with the same counters. *)
Theorem raising_limit_only_adds_deeper_blocks
    (fmt : string -> string) (c : BlueskyPost) (D D' : nat) :
  (1 <= D)%nat -> (D <= D')%nat ->
  map unlinked (blocks 1 (Linked.renderComment fmt c D))
  = filter (shallow D)
      (map unlinked (blocks 1 (Linked.renderComment fmt c D'))).
Proof.
  intros H1 H2.
  rewrite !blocks_renderComment by lia.
  rewrite !map_map, filter_map_comm.
  rewrite <- (filter_filter_within D D') by assumption.
  apply map_ext_in. now intros [d n] _.
Qed.

Lemma raising_limit_only_adds_deeper_blocks_sample :
  (1 <= 2)%nat /\ (2 <= 4)%nat /\
  map unlinked (blocks 1 (Linked.renderComment (fun s => s) chain5 2))
  = filter (shallow 2)
      (map unlinked (blocks 1 (Linked.renderComment (fun s => s) chain5 4))).
Proof.
  split; [lia|]. split; [lia|].
  apply (raising_limit_only_adds_deeper_blocks (fun s => s) chain5 2 4); lia.
Defined.

(** X7: a depth limit of 0 hides nothing more than a limit of 1: the
    top-level comment is rendered all the same, with the link in place
    of its replies. *)
Theorem limit_zero_renders_as_limit_one
    (fmt : string -> string) (c : BlueskyPost) :
  Linked.renderComment fmt c 0 = Linked.renderComment fmt c 1.
Proof.
  unfold Linked.renderComment, Linked.renderReplies, Linked.renderRepliesWith.
  destruct (replies c) as [[|x l]|]; reflexivity.
Qed.

(** X8: no block carries more than one continuation link; a link a
    block carries leads to the address of the block's own post; a
    continue-this-thread link sits on a block at the depth limit only,
    and a view-more link shows a positive number. *)
Theorem links_lead_to_their_own_block
    (fmt : string -> string) (D : nat) (c : BlueskyPost) :
  (1 <= D)%nat ->
  Forall
    (fun b =>
       (length (b_links b) <= 1)%nat /\
       Forall
         (fun l =>
            linkUrl l = getBlueskyPostUrl (uri (b_post b))
                          (handle (author (b_post b))) /\
            match l with
            | ContinueThread _ => b_depth b = D
            | ViewMore _ n => 0 < n
            end)
         (b_links b))
    (blocks 1 (Linked.renderComment fmt c D)).
Proof.
  intros HD. rewrite blocks_renderComment by assumption.
  apply Forall_map, Forall_forall. intros [d n] Hin.
  apply filter_In in Hin. destruct Hin as [_ Hw].
  unfold within in Hw. cbn [fst] in Hw. apply Nat.leb_le in Hw.
  unfold describe, linksAt, postUrl. cbn [fst snd b_links b_post b_depth].
  destruct (hasChildren n).
  - destruct (Nat.ltb_spec d D); cbn [length]; split; try lia;
      repeat constructor. lia.
  - destruct (replyCount (post n)) as [k|]; [|split; [cbn; lia|constructor]].
    destruct (Z.ltb_spec 0 k); cbn [length]; split; try lia;
      repeat constructor. assumption.
Qed.

Lemma links_lead_to_their_own_block_sample :
  (1 <= 3)%nat /\
  Forall
    (fun b =>
       (length (b_links b) <= 1)%nat /\
       Forall
         (fun l =>
            linkUrl l = getBlueskyPostUrl (uri (b_post b))
                          (handle (author (b_post b))) /\
            match l with
            | ContinueThread _ => b_depth b = 3%nat
            | ViewMore _ n => 0 < n
            end)
         (b_links b))
    (blocks 1 (Linked.renderComment (fun s => s) chain5 3)).
Proof.
  split; [lia|].
  apply (links_lead_to_their_own_block (fun s => s) 3 chain5). lia.
Defined.

(** X9: the plain renderer of the second file renders every node of
    every tree, at any depth, in the order of the input, each at its
    depth with its three counters. *)
Theorem plain_renders_every_node
    (fmt : string -> string) (comments : list BlueskyPost) :
  map placed (flat_map (blocks 1) (Plain.renderComments fmt comments))
  = map placedNode (flat_map (nodes 1) comments)
  /\ map b_counters
       (flat_map (blocks 1) (Plain.renderComments fmt comments))
     = map (fun x => counters (snd x)) (flat_map (nodes 1) comments).
Proof.
  rewrite blocks_plain_renderComments, !map_map.
  split; apply map_ext; now intros [d n].
Qed.

(** ** Nothing is escaped *)

Lemma append_nil_r (s : string) : s ++ "" = s.
Proof. induction s as [|c s IH]; simpl; congruence. Qed.

Lemma concat_empty_cons (x : string) (xs : list string) :
  String.concat "" (x :: xs) = x ++ String.concat "" xs.
Proof.
  destruct xs as [|y ys]; [now rewrite append_nil_r | reflexivity].
Qed.

Lemma occursIn_refl (s : string) : occursIn s s.
Proof. exists "", "". now rewrite append_nil_r. Qed.

Lemma occursIn_trans (a b c : string) :
  occursIn a b -> occursIn b c -> occursIn a c.
Proof.
  intros (a1 & a2 & ->) (b1 & b2 & ->).
  exists (b1 ++ a1), (a2 ++ b2).
  now rewrite (append_assoc a1), (append_assoc a), (append_assoc b1).
Qed.

Lemma concat_occurs (h : string) (parts : list string) :
  In h parts -> occursIn h (String.concat "" parts).
Proof.
  induction parts as [|x xs IH]; intros Hin; [contradiction|].
  rewrite concat_empty_cons. destruct Hin as [->|Hin].
  - exists "", (String.concat "" xs). reflexivity.
  - destruct (IH Hin) as (b & a & ->). exists (x ++ b), a.
    now rewrite append_assoc.
Qed.

Lemma carries_occurs (s : string) (h : Html) :
  Carries s h -> occursIn s (flatten h).
Proof.
  induction 1 as [|m body h Hin _ IH]; [apply occursIn_refl|].
  eapply occursIn_trans; [exact IH|].
  cbn [flatten]. apply concat_occurs. now apply in_map.
Qed.

Lemma replyHead_carries (url date : string) (p : Post) (s : string) :
  In s (payloadStrings p) -> In (InsStr s) (Linked.replyHead url date p).
Proof.
  unfold payloadStrings. intros [<-|[<-|[<-|[<-|[<-|[]]]]]];
    unfold Linked.replyHead; cbn [In];
    repeat (first [left; reflexivity | right]).
Qed.

Lemma commentHead_carries (url date : string) (p : Post) (s : string) :
  In s (payloadStrings p) -> In (InsStr s) (Linked.commentHead url date p).
Proof.
  unfold payloadStrings. intros [<-|[<-|[<-|[<-|[<-|[]]]]]];
    unfold Linked.commentHead; cbn [In];
    repeat (first [left; reflexivity | right]).
Qed.

Section LinkedCarries.
Variable fmt : string -> string.
Variable D : nat.

(** The replies rendered below a node carry what each of them carries. *)
Lemma renderRepliesWith_carries item l depth url r s :
  (depth < D)%nat -> In r l -> Carries s (item r) ->
  exists h, In h (Linked.renderRepliesWith item D l depth url) /\ Carries s h.
Proof.
  intros Hd Hr Hc. unfold Linked.renderRepliesWith.
  destruct l as [|x l']; [contradiction|].
  change (length (x :: l') =? 0)%nat with false. cbv iota.
  destruct (Nat.leb_spec D depth); [lia|].
  eexists. split; [left; reflexivity|].
  eapply carries_below; [|exact Hc].
  apply in_or_app. right. apply in_or_app. left. now apply in_map.
Qed.

Lemma carries_renderReply (reply : BlueskyPost) :
  forall depth x s,
    (depth < D)%nat ->
    In x (filter (within D) (nodes (S depth) reply)) ->
    In s (payloadStrings (post (snd x))) ->
    Carries s (Linked.renderReply fmt D depth reply).
Proof.
  induction reply as [p|p l IH] using BlueskyPost_nested_ind;
    intros depth x s Hd Hx Hs; rewrite renderReply_unfold;
    rewrite filter_nodes_within in Hx by lia; destruct Hx as [<-|Hx].
  - eapply carries_below; [|apply carries_here].
    apply in_or_app. left. now apply replyHead_carries.
  - contradiction.
  - eapply carries_below; [|apply carries_here].
    apply in_or_app. left. now apply replyHead_carries.
  - cbn [children replies] in Hx.
    destruct (Nat.leb_spec D (S depth)) as [Hb|Hb];
      [rewrite nodes_beyond_all in Hx by lia; contradiction|].
    rewrite filter_flat_map in Hx. apply in_flat_map in Hx.
    destruct Hx as (r & Hr & Hx).
    rewrite Forall_forall in IH.
    pose proof (IH r Hr (S depth) x s Hb Hx Hs) as Hc.
    destruct l as [|y l']; [contradiction|].
    change (0 <? length (y :: l'))%nat with true. cbv iota.
    destruct (renderRepliesWith_carries
                (Linked.renderReply fmt D (S depth)) (y :: l') (S depth)
                (getBlueskyPostUrl (uri p) (handle (author p))) r s Hb Hr Hc)
      as (h & Hh & Hch).
    eapply carries_below; [|exact Hch].
    apply in_or_app. right. apply in_or_app. now left.
Qed.

Lemma carries_renderComment (c : BlueskyPost) :
  forall x s,
    (1 <= D)%nat ->
    In x (filter (within D) (nodes 1 c)) ->
    In s (payloadStrings (post (snd x))) ->
    Carries s (Linked.renderComment fmt c D).
Proof.
  intros x s HD Hx Hs. rewrite renderComment_unfold.
  rewrite filter_nodes_within in Hx by lia. destruct Hx as [<-|Hx].
  - eapply carries_below; [|apply carries_here].
    apply in_or_app. left. now apply commentHead_carries.
  - unfold children in Hx. destruct (replies c) as [l|]; [|contradiction].
    destruct (Nat.leb_spec D 1) as [Hb|Hb];
      [rewrite nodes_beyond_all in Hx by lia; contradiction|].
    rewrite filter_flat_map in Hx. apply in_flat_map in Hx.
    destruct Hx as (r & Hr & Hx).
    pose proof (carries_renderReply r 1 x s Hb Hx Hs) as Hc.
    destruct l as [|y l']; [contradiction|].
    change (0 <? length (y :: l'))%nat with true. cbv iota.
    destruct (renderRepliesWith_carries (Linked.renderReply fmt D 1)
                (y :: l') 1 (postUrl c) r s Hb Hr Hc) as (h & Hh & Hch).
    eapply carries_below; [|exact Hch].
    apply in_or_app. right. apply in_or_app. now left.
Qed.

End LinkedCarries.

(** X10: the markup that goes into the list holds, for every rendered
    node, the body text, the display name, the handle, the avatar
    address and the timestamp of its post exactly as the payload has
    them: the script escapes nothing. *)
Theorem payload_strings_are_not_escaped
    (fmt : string -> string) (comments : list BlueskyPost)
    (x : nat * BlueskyPost) (s : string) :
  In x (filter (within Linked.defaultMaxDepth) (flat_map (nodes 1) comments)) ->
  In s (payloadStrings (post (snd x))) ->
  occursIn s (join (Linked.renderComments fmt comments)).
Proof.
  intros Hx Hs. rewrite filter_flat_map in Hx. apply in_flat_map in Hx.
  destruct Hx as (c & Hc & Hx).
  unfold Linked.renderComments. destruct comments as [|c0 cs];
    [contradiction|].
  change (length (c0 :: cs) =? 0)%nat with false. cbv iota.
  eapply occursIn_trans.
  - apply carries_occurs.
    apply (carries_renderComment fmt Linked.defaultMaxDepth c x s);
      [unfold Linked.defaultMaxDepth; lia | exact Hx | exact Hs].
  - unfold join. apply concat_occurs.
    apply in_map. now apply in_map with (f := fun c => Linked.renderComment fmt c Linked.defaultMaxDepth).
Qed.

Lemma payload_strings_are_not_escaped_sample :
  In (1%nat, markupPost)
    (filter (within Linked.defaultMaxDepth) (flat_map (nodes 1) [markupPost]))
  /\ In "<img src=x onerror=alert(1)>" (payloadStrings (post markupPost))
  /\ occursIn "<img src=x onerror=alert(1)>"
       (join (Linked.renderComments (fun s => s) [markupPost])).
Proof.
  assert (In (1%nat, markupPost)
            (filter (within Linked.defaultMaxDepth)
               (flat_map (nodes 1) [markupPost]))) as Hx by (left; reflexivity).
  assert (In "<img src=x onerror=alert(1)>"
            (payloadStrings (post markupPost))) as Hs by (left; reflexivity).
  split; [exact Hx|]. split; [exact Hs|].
  exact (payload_strings_are_not_escaped (fun s => s) [markupPost] _ _ Hx Hs).
Defined.

(** ** The translator, forwards *)

Lemma split_noSlash_one (key : string) :
  noSlash key -> split "/"%char key = [key].
Proof.
  induction key as [|c r IH]; intros Hn; [reflexivity|].
  cbn [split]. destruct (Ascii.eqb_spec c "/"%char) as [->|Hc].
  - exfalso. apply Hn. now left.
  - rewrite IH; [reflexivity|]. intros Hin. apply Hn. now right.
Qed.

Lemma split_ends_with_key (before key : string) :
  noSlash key ->
  exists init, init <> [] /\
    split "/"%char (before ++ "/" ++ key) = (init ++ [key])%list.
Proof.
  intros Hn. change ("/" ++ key) with (String "/"%char key).
  induction before as [|c r (init & Hne & IH)].
  - exists [""]. split; [discriminate|].
    simpl. now rewrite split_noSlash_one.
  - cbn [append split]. destruct (Ascii.eqb c "/"%char).
    + exists ("" :: init). split; [discriminate|]. now rewrite IH.
    + rewrite IH. destruct init as [|i0 init']; [congruence|].
      exists (String c i0 :: init'). split; [discriminate | reflexivity].
Qed.

Lemma pop_snoc (init : list string) (key : string) :
  pop (init ++ [key]) = Some key.
Proof.
  induction init as [|x xs IH]; [reflexivity|].
  cbn [app pop]. destruct (xs ++ [key])%list eqn:E; [|exact IH].
  now destruct xs.
Qed.

(** X11: the address depends on the uri through its last segment only:
    for a record key without a slash, whatever stands before the last
    slash of the uri (protocol, authority, collection) is ignored, a uri
    that is nothing but the key gives the same address, and a uri that
    ends in a slash gives an address with an empty record key. *)
Theorem getBlueskyPostUrl_ignores_all_but_last_segment
    (before key handle : string) :
  noSlash key ->
  getBlueskyPostUrl (before ++ "/" ++ key) handle
  = "https://bsky.app/profile/" ++ handle ++ "/post/" ++ key
  /\ getBlueskyPostUrl key handle
     = "https://bsky.app/profile/" ++ handle ++ "/post/" ++ key
  /\ getBlueskyPostUrl (before ++ "/") handle
     = "https://bsky.app/profile/" ++ handle ++ "/post/".
Proof.
  intros Hn. unfold getBlueskyPostUrl. split; [|split].
  - destruct (split_ends_with_key before key Hn) as (init & _ & ->).
    now rewrite pop_snoc.
  - now rewrite split_noSlash_one.
  - destruct (split_ends_with_key before "") as (init & _ & E);
      [intros []|].
    change (before ++ "/" ++ "") with (before ++ "/") in E.
    now rewrite E, pop_snoc.
Qed.

Lemma getBlueskyPostUrl_ignores_all_but_last_segment_sample :
  noSlash "xyz789" /\
  getBlueskyPostUrl ("at://did:plc:other/app.bsky.feed.like" ++ "/" ++ "xyz789")
    "alice.bsky.social"
  = "https://bsky.app/profile/" ++ "alice.bsky.social" ++ "/post/" ++ "xyz789".
Proof.
  assert (noSlash "xyz789") as Hn.
  { unfold noSlash. cbn. intros H.
    repeat (destruct H as [H|H]; [discriminate|]). exact H. }
  split; [exact Hn|].
  apply (getBlueskyPostUrl_ignores_all_but_last_segment
           "at://did:plc:other/app.bsky.feed.like" "xyz789"
           "alice.bsky.social" Hn).
Defined.

(** ** Construction of a view *)

(** ** Construction of a view *)

(** X12: the constructor succeeds exactly on a container that has a uri
    that is not empty and all four descendants; it refuses with the
    uri message exactly when the uri is missing or empty, whatever the
    descendants, and with the elements message exactly when the uri is
    there and a descendant is missing. *)
Theorem construct_outcomes (c : Container) :
  ((exists v, construct c = inr v) <-> usable c)
  /\ (construct c = inl "Bluesky URI is required" <->
      dataset_blueskyUri c = None \/ dataset_blueskyUri c = Some "")
  /\ (construct c = inl "Required DOM elements not found" <->
      (exists uri, dataset_blueskyUri c = Some uri /\ uri <> "") /\
      missingElement c).
Proof.
  unfold usable, missingElement, construct.
  destruct c as [[[|ch u]|] l e cl r];
    cbn [dataset_blueskyUri comments_loader comments_error comments_list
         refresh_comments].
  - (* the uri is empty *)
    split; [|split]; split.
    + intros [v H]. discriminate H.
    + intros [[uri [H Hne]] _]. congruence.
    + intros _. now right.
    + reflexivity.
    + discriminate.
    + intros [[uri [H Hne]] _]. congruence.
  - (* a uri: the descendants decide *)
    assert (exists uri, Some (String ch u) = Some uri /\ uri <> "") as Huri
      by (eexists; split; [reflexivity | discriminate]).
    destruct l, e, cl, r.
    all: split; [|split]; split.
    all: try discriminate.
    all: try (intros [v H]; discriminate H).
    all: try (intros [H|H]; discriminate H).
    all: try (intros [_ [X|[X|[X|X]]]];
              first [discriminate X | reflexivity]).
    all: try (intros [_ Hm];
              first [eexists; reflexivity | exfalso; apply Hm; tauto]).
    all: try (intros _; split; [exact Huri|];
              first [tauto | intros [X|[X|[X|X]]]; discriminate X]).
  - (* no uri *)
    split; [|split]; split.
    + intros [v H]. discriminate H.
    + intros [[uri [H Hne]] _]. discriminate H.
    + intros _. now left.
    + reflexivity.
    + discriminate.
    + intros [[uri [H Hne]] _]. discriminate H.
Qed.

Lemma construct_usable (c : Container) :
  usable c ->
  exists v,
    construct c = inr v /\ isLoading v /\
    Some (bluesky_uri v) = dataset_blueskyUri c /\
    usable (attach v c) /\
    refreshListeners (attach v c) = S (refreshListeners c).
Proof.
  intros [(uri & Hu & Hne) Hm]. unfold missingElement in Hm.
  destruct c as [d [l|] [e|] [cl|] [r|]];
    cbn [dataset_blueskyUri comments_loader comments_error comments_list
         refresh_comments] in *;
    try (exfalso; apply Hm; tauto).
  subst d. destruct uri as [|ch u]; [congruence|].
  eexists. split; [reflexivity|]. repeat split.
  - eexists. split; [reflexivity | discriminate].
  - cbn. intros [X|[X|[X|X]]]; discriminate X.
Qed.

Lemma initializeOn_views (cs : list Container) :
  snd (initializeOn cs) = initializeCommentSections cs.
Proof.
  induction cs as [|c cs IH]; [reflexivity|].
  cbn [initializeOn initializeCommentSections].
  destruct (construct c) as [err|v]; [reflexivity|].
  destruct (initializeOn cs) as [cs1 [vs err]]. cbn [snd] in IH.
  now rewrite <- IH.
Qed.

Lemma initializeOn_usable (cs : list Container) :
  Forall usable cs ->
  exists cs1 vs,
    initializeOn cs = (cs1, (vs, None)) /\
    length vs = length cs /\
    Forall usable cs1 /\
    map refreshListeners cs1 = map S (map refreshListeners cs) /\
    Forall isLoading vs /\
    map (fun v => Some (bluesky_uri v)) vs = map dataset_blueskyUri cs.
Proof.
  induction 1 as [|c cs Hc _ (cs1 & vs & E & Hlen & Hus & Hls & Hld & Huri)].
  - exists [], []. repeat split; constructor.
  - destruct (construct_usable c Hc) as (v & Ev & Hv & Hu & Hua & Hl).
    exists (attach v c :: cs1), (v :: vs).
    cbn [initializeOn]. rewrite Ev, E. cbn [length map].
    repeat split; try constructor; try assumption; try congruence;
      apply Hv.
Qed.

(** X13: on a page whose containers all have a uri and their four
    descendants, no error escapes, and there is one view per container,
    in document order, each for the uri of its container and each in
    the loading state. *)
Theorem usable_page_gets_one_view_per_container (cs : list Container) :
  Forall usable cs ->
  exists vs,
    initializeCommentSections cs = (vs, None) /\
    map (fun v => Some (bluesky_uri v)) vs = map dataset_blueskyUri cs /\
    Forall isLoading vs.
Proof.
  intros H.
  destruct (initializeOn_usable cs H) as (cs1 & vs & E & _ & _ & _ & Hl & Hu).
  exists vs. rewrite <- initializeOn_views, E. now repeat split.
Qed.

Lemma usable_goodContainer : usable goodContainer.
Proof.
  split.
  - eexists. split; [reflexivity | discriminate].
  - intros [X|[X|[X|X]]]; discriminate X.
Qed.

Lemma usable_page_gets_one_view_per_container_sample :
  Forall usable [goodContainer; goodContainer] /\
  exists vs,
    initializeCommentSections [goodContainer; goodContainer] = (vs, None) /\
    map (fun v => Some (bluesky_uri v)) vs
    = map dataset_blueskyUri [goodContainer; goodContainer] /\
    Forall isLoading vs.
Proof.
  assert (Forall usable [goodContainer; goodContainer]) as H
    by (repeat constructor; apply usable_goodContainer).
  split; [exact H|].
  exact (usable_page_gets_one_view_per_container _ H).
Defined.

(** ** The component calls what the module has called already *)

Lemma callInitialize_on (rs : ReadyState) (n : nat) (d d1 : list Container)
    (vs vs1 : list CommentSection) (un : list string) :
  initializeOn d = (d1, (vs1, None)) ->
  callInitialize (mkPage rs n d vs un) = mkPage rs n d1 (vs ++ vs1) un.
Proof.
  intros E. unfold callInitialize. cbn [dom]. rewrite E. cbn.
  now rewrite app_nil_r.
Qed.

(** X14: on a page of the component whose containers are all usable,
    [initializeCommentSections] runs twice, once when the module is
    evaluated (at once, or on DOMContentLoaded while the document is
    still loading) and once from the script of the component: every
    container gets two views and its refresh control two click
    listeners, and no error escapes. *)
Theorem component_initializes_every_container_twice (p : Page) :
  Forall usable (dom p) -> onDOMContentLoaded p = O ->
  let p2 := loadPage p in
  length (views p2) = (length (views p) + 2 * length (dom p))%nat /\
  map refreshListeners (dom p2)
  = map (fun c => S (S (refreshListeners c))) (dom p) /\
  uncaught p2 = uncaught p.
Proof.
  intros Hu Hn. destruct p as [rs n d vs un].
  cbn [dom onDOMContentLoaded views uncaught] in *. subst n.
  destruct (initializeOn_usable d Hu)
    as (d1 & vs1 & E1 & L1 & U1 & R1 & _).
  destruct (initializeOn_usable d1 U1)
    as (d2 & vs2 & E2 & L2 & _ & R2 & _).
  assert (length d1 = length d) as Ld.
  { rewrite <- (length_map refreshListeners d1), R1.
    now rewrite !length_map. }
  assert (loadPage (mkPage rs 0 d vs un)
          = mkPage (match rs with Loading => Interactive | _ => rs end) 0 d2
              ((vs ++ vs1) ++ vs2) un) as ->.
  { unfold loadPage, componentScript, evaluateModule, fireDOMContentLoaded.
    destruct rs; cbn [readyState uncaught].
    - rewrite Nat.eqb_refl, (callInitialize_on _ _ _ _ _ _ _ E1).
      cbn [onDOMContentLoaded dom views uncaught Nat.iter].
      apply (callInitialize_on _ _ _ _ _ _ _ E2).
    - rewrite (callInitialize_on _ _ _ _ _ _ _ E1). cbn [uncaught].
      rewrite Nat.eqb_refl. apply (callInitialize_on _ _ _ _ _ _ _ E2).
    - rewrite (callInitialize_on _ _ _ _ _ _ _ E1). cbn [uncaught].
      rewrite Nat.eqb_refl. apply (callInitialize_on _ _ _ _ _ _ _ E2). }
  cbn [views dom uncaught]. rewrite !length_app, L1, L2, Ld, R2, R1.
  rewrite !map_map. repeat split. lia.
Qed.

Lemma usable_postPage (state : ReadyState) : Forall usable (dom (postPage state)).
Proof.
  repeat constructor.
  - eexists. split; [reflexivity | discriminate].
  - intros [X|[X|[X|X]]]; discriminate X.
Qed.

Lemma component_initializes_every_container_twice_sample :
  Forall usable (dom (postPage Interactive)) /\
  onDOMContentLoaded (postPage Interactive) = O /\
  length (views (loadPage (postPage Interactive))) = 2%nat /\
  map refreshListeners (dom (loadPage (postPage Interactive))) = [2%nat].
Proof.
  split; [apply usable_postPage|]. split; [reflexivity|].
  destruct (component_initializes_every_container_twice
              (postPage Interactive) (usable_postPage Interactive) eq_refl)
    as (Hv & Hl & _).
  split; [exact Hv | exact Hl].
Defined.

(** The same page while the document is still loading. *)
Example postPage_loading_initializes_twice :
  length (views (loadPage (postPage Loading))) = 2%nat /\
  map refreshListeners (dom (loadPage (postPage Loading))) = [2%nat] /\
  length (views (componentScript (postPage Loading))) = 1%nat.
Proof. repeat split. Qed.

(** ** The timer keeps going *)

Lemma run_ticks (k : nat) :
  forall fuel now due started,
    (S k <= fuel)%nat ->
    cycles (run fuel (due + N.of_nat k * REFRESH_MS)
              (mkTimeline now None (Some (REFRESH_MS, due)) started))
    = (started
       ++ map (fun i => (due + N.of_nat i * REFRESH_MS)%N) (seq 0 (S k)))%list.
Proof.
  assert (0 < REFRESH_MS)%N as HR by reflexivity.
  induction k as [|k IH]; intros fuel now due started Hfuel;
    (destruct fuel as [|fuel]; [lia|]).
  - rewrite run_tick by lia. rewrite run_settled by lia.
    cbn [cycles seq map]. repeat f_equal; lia.
  - rewrite run_tick by lia.
    replace (due + N.of_nat (S k) * REFRESH_MS)%N
      with (due + REFRESH_MS + N.of_nat k * REFRESH_MS)%N by lia.
    rewrite IH by lia. rewrite <- app_assoc. f_equal.
    change (seq 0 (S (S k))) with (0%nat :: seq 1 (S k)).
    rewrite <- seq_shift. cbn [map app]. rewrite map_map.
    f_equal; [f_equal; lia|]. apply map_ext. intros i. lia.
Qed.

(** X15: the timer never stops: once the first cycle has settled, a
    cycle starts every 5 minutes; by the time of the k-th tick the
    cycles started are the one at mount time and one for each of the
    ticks 1 to k, at 5-minute steps from the time the first cycle
    settled. *)
Theorem timer_starts_a_cycle_every_period
    (t latency : N) (k fuel : nat) :
  (1 <= k)%nat -> (S k <= fuel)%nat ->
  cycles (run fuel (t + latency + N.of_nat k * REFRESH_MS) (mount t latency))
  = t :: map (fun i => (t + latency + N.of_nat i * REFRESH_MS)%N) (seq 1 k).
Proof.
  intros Hk Hfuel. unfold mount.
  destruct fuel as [|fuel]; [lia|]. destruct k as [|k]; [lia|].
  rewrite run_resume by lia.
  replace (t + latency + N.of_nat (S k) * REFRESH_MS)%N
    with (t + latency + REFRESH_MS + N.of_nat k * REFRESH_MS)%N by lia.
  rewrite run_ticks by lia. cbn [app]. f_equal.
  rewrite <- seq_shift, map_map. apply map_ext. intros i. lia.
Qed.

Lemma timer_starts_a_cycle_every_period_sample :
  (1 <= 12)%nat /\ (13 <= 20)%nat /\
  length (cycles (run 20 (0 + 250 + N.of_nat 12 * REFRESH_MS) (mount 0 250)))
  = 13%nat.
Proof.
  split; [lia|]. split; [lia|].
  rewrite (timer_starts_a_cycle_every_period 0 250 12 20) by lia.
  reflexivity.
Defined.

(** ** The address a cycle requests *)

Lemma percentDecode_char (c : ascii) (r : string) :
  percentDecode
    ((if isUnreserved c then String c "" else percentEscape c) ++ r)
  = option_map (String c) (percentDecode r).
Proof.
  destruct c as [[] [] [] [] [] [] [] []]; reflexivity.
Qed.

Lemma percentDecode_encode (s : string) :
  percentDecode (encodeURIComponent s) = Some s.
Proof.
  induction s as [|c r IH]; [reflexivity|].
  cbn [encodeURIComponent]. now rewrite percentDecode_char, IH.
Qed.

Lemma append_cancel_l (a x y : string) : a ++ x = a ++ y -> x = y.
Proof.
  induction a as [|c a IH]; cbn [append]; intros H; [exact H|].
  injection H as H. now apply IH.
Qed.

(** X16: the encoding of the uri loses nothing: reading the percent
    escapes back gives the uri again, so two views request the same
    address only when they are for the same uri. *)
Theorem endpoint_tells_uris_apart :
  (forall uri, percentDecode (encodeURIComponent uri) = Some uri)
  /\ (forall uri1 uri2, endpoint uri1 = endpoint uri2 -> uri1 = uri2).
Proof.
  split; [apply percentDecode_encode|].
  intros u1 u2 H. unfold endpoint in H. apply append_cancel_l in H.
  pose proof (percentDecode_encode u1) as H1. rewrite H in H1.
  rewrite percentDecode_encode in H1. now injection H1.
Qed.

Lemma chars_append (a b : string) :
  list_ascii_of_string (a ++ b)
  = (list_ascii_of_string a ++ list_ascii_of_string b)%list.
Proof. induction a as [|c a IH]; cbn; [reflexivity | now rewrite IH]. Qed.

Lemma encoded_char (c : ascii) :
  forallb isEncoded
    (list_ascii_of_string
       (if isUnreserved c then String c "" else percentEscape c)) = true.
Proof.
  destruct c as [[] [] [] [] [] [] [] []]; reflexivity.
Qed.

(** X17: an encoded component consists of letters, digits, the marks
    [- _ . ! ~ * ' ( )] and percent escapes only; none of the characters
    that structure an address (ampersand, equals sign, question mark,
    hash, slash, colon, plus, space and the like) occurs in it, whatever
    the input; and the address requested is the fixed prefix followed
    by such a component. *)
Theorem encodeURIComponent_leaves_no_reserved_character (s : string) :
  forallb isEncoded (list_ascii_of_string (encodeURIComponent s)) = true
  /\ forallb (fun c => negb (isEncoded c))
       (list_ascii_of_string "&=?#/:+ ,;@$[]<>{}|\^`") = true
  /\ endpoint s
     = "https://api.bsky.app/xrpc/app.bsky.feed.getPostThread?uri="
       ++ encodeURIComponent s.
Proof.
  split; [|split; reflexivity].
  induction s as [|c r IH]; [reflexivity|].
  cbn [encodeURIComponent]. rewrite chars_append, forallb_app.
  now rewrite encoded_char, IH.
Qed.

(** The request for the reference uri. *)
Example endpoint_reference :
  endpoint "at://did:plc:abc123/app.bsky.feed.post/xyz789"
  = "https://api.bsky.app/xrpc/app.bsky.feed.getPostThread?uri=at%3A%2F%2Fdid%3Aplc%3Aabc123%2Fapp.bsky.feed.post%2Fxyz789".
Proof. reflexivity. Qed.

(** ** The three translators of the repository *)

Lemma split_segment (a rest : string) :
  noSlash a ->
  split "/"%char (a ++ "/" ++ rest) = a :: split "/"%char rest.
Proof.
  change ("/" ++ rest) with (String "/"%char rest).
  induction a as [|c a IH]; intros Hn.
  - reflexivity.
  - cbn [append split]. destruct (Ascii.eqb_spec c "/"%char) as [->|Hc].
    + exfalso. apply Hn. now left.
    + rewrite IH; [reflexivity|]. intros Hin. apply Hn. now right.
Qed.

Lemma split_atUri (did collection rkey : string) :
  noSlash did -> noSlash collection -> noSlash rkey ->
  split "/"%char (atUri did collection rkey)
  = ["at:"; ""; did; collection; rkey].
Proof.
  intros Hd Hc Hr. unfold atUri.
  change ("at://" ++ did ++ "/" ++ collection ++ "/" ++ rkey)
    with ("at:" ++ "/" ++ "" ++ "/" ++ did ++ "/" ++ collection ++ "/" ++ rkey).
  rewrite (split_segment "at:").
  2:{ intros H. cbn in H. repeat (destruct H as [H|H]; [discriminate|]). exact H. }
  rewrite (split_segment ""); [|intros []].
  rewrite (split_segment did) by assumption.
  rewrite (split_segment collection) by assumption.
  now rewrite split_noSlash_one.
Qed.

(** X18: on an AT uri of a post, with an authority, a collection and a
    record key without slashes, the three translators of the repository
    agree: the share link of the layout, the thread link of the
    component and the renderer's translator called with the authority
    as handle all give the profile of the authority with the record
    key. *)
Theorem translators_agree_on_post_uris
    (did collection rkey url title : string) :
  noSlash did -> noSlash collection -> noSlash rkey ->
  let uri := atUri did collection rkey in
  bluesky (generateSocialShareUrls url title (Some uri))
  = "https://bsky.app/profile/" ++ did ++ "/post/" ++ rkey
  /\ blueskyLink uri = "https://bsky.app/profile/" ++ did ++ "/post/" ++ rkey
  /\ getBlueskyPostUrl uri did
     = "https://bsky.app/profile/" ++ did ++ "/post/" ++ rkey.
Proof.
  intros Hd Hc Hr. cbv zeta.
  unfold generateSocialShareUrls, blueskyLink, getBlueskyPostUrl.
  change (atUri did collection rkey)
    with (String "a" ("t://" ++ did ++ "/" ++ collection ++ "/" ++ rkey)) at 1.
  cbv iota. cbn [bluesky].
  change (String "a" ("t://" ++ did ++ "/" ++ collection ++ "/" ++ rkey))
    with (atUri did collection rkey).
  rewrite !split_atUri by assumption. repeat split.
Qed.

Lemma noSlash_sample (s : string) :
  forallb (fun c => negb (Ascii.eqb c "/")) (list_ascii_of_string s) = true ->
  noSlash s.
Proof.
  unfold noSlash. induction (list_ascii_of_string s) as [|c l IH];
    cbn [forallb In]; intros H; [tauto|].
  apply andb_prop in H. destruct H as [Hc Hl]. intros [->|Hin].
  - now rewrite Ascii.eqb_refl in Hc.
  - now apply IH.
Qed.

Lemma translators_agree_on_post_uris_sample :
  noSlash "did:plc:abc123" /\ noSlash "app.bsky.feed.post" /\
  noSlash "xyz789" /\
  bluesky
    (generateSocialShareUrls "https://tskulbru.dev/posts/x/" "A post"
       (Some (atUri "did:plc:abc123" "app.bsky.feed.post" "xyz789")))
  = "https://bsky.app/profile/" ++ "did:plc:abc123" ++ "/post/" ++ "xyz789".
Proof.
  assert (noSlash "did:plc:abc123") as Hd by (apply noSlash_sample; reflexivity).
  assert (noSlash "app.bsky.feed.post") as Hc
    by (apply noSlash_sample; reflexivity).
  assert (noSlash "xyz789") as Hr by (apply noSlash_sample; reflexivity).
  split; [exact Hd|]. split; [exact Hc|]. split; [exact Hr|].
  apply (translators_agree_on_post_uris "did:plc:abc123" "app.bsky.feed.post"
           "xyz789" "https://tskulbru.dev/posts/x/" "A post" Hd Hc Hr).
Defined.

(** X19: the share links at the edges: without a thread uri, or with
    the empty one, the Bluesky link is the compose intent for the title,
    a space and the address, encoded; a thread uri without any slash
    gives the profile and the post of [undefined]; and the other five
    links do not depend on the thread uri. *)
Theorem share_links_without_a_post_uri (url title : string) :
  bluesky (generateSocialShareUrls url title None)
  = "https://bsky.app/intent/compose?text="
    ++ encodeURIComponent (title ++ " " ++ url)
  /\ generateSocialShareUrls url title (Some "")
     = generateSocialShareUrls url title None
  /\ (forall c uri,
        noSlash (String c uri) ->
        bluesky (generateSocialShareUrls url title (Some (String c uri)))
        = "https://bsky.app/profile/undefined/post/undefined")
  /\ (forall uri1 uri2,
        let a := generateSocialShareUrls url title uri1 in
        let b := generateSocialShareUrls url title uri2 in
        twitter a = twitter b /\ linkedin a = linkedin b /\
        facebook a = facebook b /\ reddit a = reddit b /\
        hackernews a = hackernews b).
Proof.
  split; [reflexivity|]. split; [reflexivity|]. split.
  - intros c uri Hn. unfold generateSocialShareUrls. cbn [bluesky].
    now rewrite (split_noSlash_one _ Hn).
  - intros uri1 uri2. repeat split.
Qed.

(** ** Breadcrumbs *)

Lemma mapWithIndex_positions (crumbs : list Crumb) (index : nat) :
  let out := mapWithIndex
               (fun crumb i =>
                  mkListItem "ListItem" (i + 1) (crumb_name crumb)
                    (crumb_url crumb))
               index crumbs in
  map position out = seq (index + 1) (length crumbs) /\
  map item_name out = map crumb_name crumbs /\
  map item out = map crumb_url crumbs.
Proof.
  revert index. induction crumbs as [|c cs IH]; intros index;
    [repeat split|].
  destruct (IH (S index)) as (Hp & Hn & Hi).
  cbn [mapWithIndex map length seq position item_name item].
  rewrite Hp, Hn, Hi. repeat split.
Qed.

(** X20: the breadcrumb list numbers its items 1, 2, 3 and so on in
    the order of the input, one item per crumb, each with the name and
    the address of its crumb. *)
Theorem breadcrumbs_are_numbered_from_one (breadcrumbs : list Crumb) :
  let items := itemListElement
                 (generateBreadcrumbStructuredData breadcrumbs) in
  map position items = seq 1 (length breadcrumbs) /\
  map item_name items = map crumb_name breadcrumbs /\
  map item items = map crumb_url breadcrumbs.
Proof.
  exact (mapWithIndex_positions breadcrumbs 0).
Qed.

(** ** Reading time *)

Lemma splitWhiteSpace_not_nil (b : bool) (s : list N) :
  splitWhiteSpace b s <> [].
Proof.
  revert b. induction s as [|c r IH]; intros b; cbn [splitWhiteSpace];
    [discriminate|].
  destruct (isWhiteSpace c).
  - destruct b; [apply IH | discriminate].
  - destruct (splitWhiteSpace false r); discriminate.
Qed.

Lemma trimStart_blank (s : list N) :
  Forall (fun c => isWhiteSpace c = true) s -> trimStart s = [].
Proof.
  induction 1 as [|c r Hc _ IH]; [reflexivity|].
  cbn [trimStart]. now rewrite Hc.
Qed.

(** X21: the reading time is never 0: it is at least one minute for
    every content, and exactly one minute for content that is empty or
    white space only. *)
Theorem reading_time_is_at_least_one_minute (content : list N) :
  (1 <= getEstimatedReadingTime content)%nat
  /\ (Forall (fun c => isWhiteSpace c = true) content ->
      getEstimatedReadingTime content = 1%nat).
Proof.
  unfold getEstimatedReadingTime. split.
  - pose proof (splitWhiteSpace_not_nil false (trim content)) as H.
    destruct (splitWhiteSpace false (trim content)) as [|p ps];
      [congruence|].
    cbn [length]. apply Nat.div_le_lower_bound; lia.
  - intros H. unfold trim. rewrite (trimStart_blank _ H). reflexivity.
Qed.

Lemma trimStart_gap (g s : list N) :
  Forall (fun c => isWhiteSpace c = true) g ->
  trimStart (g ++ s)%list = trimStart s.
Proof.
  induction 1 as [|c r Hc _ IH]; [reflexivity|].
  cbn [app trimStart]. now rewrite Hc.
Qed.

Lemma trimStart_word (w s : list N) :
  isWord w -> trimStart (w ++ s)%list = (w ++ s)%list.
Proof.
  intros [Hne Hw]. destruct w as [|c w]; [congruence|].
  inversion Hw as [|? ? Hc _]; subst. cbn [app trimStart]. now rewrite Hc.
Qed.

Lemma trimEnd_gap (s g : list N) :
  Forall (fun c => isWhiteSpace c = true) g ->
  trimEnd (s ++ g)%list = trimEnd s.
Proof.
  intros H. unfold trimEnd. rewrite rev_app_distr.
  rewrite trimStart_gap; [reflexivity|]. now apply Forall_rev.
Qed.

Lemma trimEnd_word (s w : list N) :
  isWord w -> trimEnd (s ++ w)%list = (s ++ w)%list.
Proof.
  intros [Hne Hw]. unfold trimEnd. rewrite rev_app_distr.
  rewrite trimStart_word; [now rewrite <- rev_app_distr, rev_involutive|].
  split; [|now apply Forall_rev].
  intros E. apply Hne. now rewrite <- (rev_involutive w), E.
Qed.

(** The words of a text end with a word. *)
Lemma words_end_with_word (first : list N) (more : list (list N * list N)) :
  isWord first -> Forall (fun gw => isWord (snd gw)) more ->
  exists s w, isWord w /\
    (first ++ flat_map (fun gw => (fst gw ++ snd gw)%list) more)%list = (s ++ w)%list.
Proof.
  intros Hf Hm. revert first Hf.
  induction Hm as [|[g w] more Hw _ IH]; intros first Hf.
  - exists [], first. now rewrite app_nil_r.
  - cbn [flat_map fst snd] in *.
    destruct (IH w Hw) as (s & w2 & Hw2 & E).
    exists (first ++ g ++ s)%list, w2. split; [assumption|].
    rewrite <- (app_assoc g w), E. now rewrite !app_assoc.
Qed.

Lemma trim_textOf lead first more trail :
  Forall (fun c => isWhiteSpace c = true) lead ->
  Forall (fun c => isWhiteSpace c = true) trail ->
  isWord first -> Forall (fun gw => isWord (snd gw)) more ->
  trim (textOf lead first more trail)
  = (first ++ flat_map (fun gw => (fst gw ++ snd gw)%list) more)%list.
Proof.
  intros Hl Ht Hf Hm. unfold trim, textOf.
  rewrite trimStart_gap by assumption.
  rewrite trimStart_word by assumption.
  rewrite app_assoc, trimEnd_gap by assumption.
  destruct (words_end_with_word first more Hf Hm) as (s & w & Hw & ->).
  now apply trimEnd_word.
Qed.

Lemma splitWhiteSpace_after_run (s : list N) :
  (s = [] \/ exists c r, s = c :: r /\ isWhiteSpace c = false) ->
  splitWhiteSpace true s = splitWhiteSpace false s.
Proof.
  intros [->|(c & r & -> & Hc)]; [reflexivity|].
  cbn [splitWhiteSpace]. now rewrite Hc.
Qed.

Lemma splitWhiteSpace_gap (g s : list N) :
  isGap g ->
  (s = [] \/ exists c r, s = c :: r /\ isWhiteSpace c = false) ->
  splitWhiteSpace false (g ++ s)%list = [] :: splitWhiteSpace false s.
Proof.
  intros [Hne Hg] Hs. destruct g as [|c g]; [congruence|].
  inversion Hg as [|? ? Hc Hg']; subst.
  cbn [app splitWhiteSpace]. rewrite Hc. f_equal.
  clear Hc Hne Hg. induction Hg' as [|d g Hd _ IH].
  - now apply splitWhiteSpace_after_run.
  - cbn [app splitWhiteSpace]. now rewrite Hd.
Qed.

Lemma splitWhiteSpace_word (w s : list N) (piece : list N) (pieces : list (list N)) :
  Forall (fun c => isWhiteSpace c = false) w ->
  splitWhiteSpace false s = piece :: pieces ->
  splitWhiteSpace false (w ++ s)%list = (w ++ piece)%list :: pieces.
Proof.
  intros Hw E. induction Hw as [|c w Hc _ IH]; [exact E|].
  cbn [app splitWhiteSpace]. now rewrite Hc, IH.
Qed.

Lemma splitWhiteSpace_words (first : list N) (more : list (list N * list N)) :
  isWord first ->
  Forall (fun gw => isGap (fst gw) /\ isWord (snd gw)) more ->
  splitWhiteSpace false
    (first ++ flat_map (fun gw => (fst gw ++ snd gw)%list) more)%list
  = first :: map snd more.
Proof.
  intros Hf Hm. revert first Hf.
  induction Hm as [|[g w] more [Hg Hw] _ IH]; intros first Hf.
  - cbn [flat_map map]. rewrite (splitWhiteSpace_word first [] [] []).
    + now rewrite app_nil_r.
    + apply Hf.
    + reflexivity.
  - cbn [flat_map map fst snd] in *.
    rewrite (splitWhiteSpace_word first _ [] (w :: map snd more)).
    + now rewrite app_nil_r.
    + apply Hf.
    + rewrite <- app_assoc, splitWhiteSpace_gap.
      * now rewrite IH.
      * assumption.
      * right. destruct Hw as [Hne Hw']. destruct w as [|c w]; [congruence|].
        inversion Hw'; subst. eexists _, _. split; [reflexivity|assumption].
Qed.

(** X22: the reading time counts words and nothing else: for a text of
    n words, whatever white space stands between them, before the first
    and after the last, it is n divided by 200, rounded up. *)
Theorem reading_time_counts_words
    (lead first : list N) (more : list (list N * list N)) (trail : list N) :
  Forall (fun c => isWhiteSpace c = true) lead ->
  Forall (fun c => isWhiteSpace c = true) trail ->
  isWord first ->
  Forall (fun gw => isGap (fst gw) /\ isWord (snd gw)) more ->
  getEstimatedReadingTime (textOf lead first more trail)
  = ((S (length more) + 199) / 200)%nat.
Proof.
  intros Hl Ht Hf Hm. unfold getEstimatedReadingTime.
  rewrite trim_textOf; try assumption.
  - rewrite splitWhiteSpace_words by assumption.
    cbn [length]. now rewrite length_map.
  - eapply Forall_impl; [|exact Hm]. now intros gw [_ Hw].
Qed.

Lemma reading_time_counts_words_sample :
  Forall (fun c => isWhiteSpace c = true) [32; 9]%N /\
  Forall (fun c => isWhiteSpace c = true) [10]%N /\
  isWord [104; 105]%N /\
  Forall (fun gw => isGap (fst gw) /\ isWord (snd gw))
    [([160; 32]%N, [121; 111; 117]%N)] /\
  getEstimatedReadingTime
    (textOf [32; 9]%N [104; 105]%N [([160; 32]%N, [121; 111; 117]%N)] [10]%N)
  = 1%nat.
Proof.
  assert (Forall (fun c => isWhiteSpace c = true) [32; 9]%N) as Hl
    by (repeat constructor).
  assert (Forall (fun c => isWhiteSpace c = true) [10]%N) as Ht
    by (repeat constructor).
  assert (isWord [104; 105]%N) as Hf
    by (split; [discriminate | repeat constructor]).
  assert (Forall (fun gw => isGap (fst gw) /\ isWord (snd gw))
            [([160; 32]%N, [121; 111; 117]%N)]) as Hm.
  { constructor; [|constructor]. split; split; try discriminate;
      repeat constructor. }
  split; [exact Hl|]. split; [exact Ht|]. split; [exact Hf|].
  split; [exact Hm|].
  exact (reading_time_counts_words _ _ _ _ Hl Ht Hf Hm).
Defined.

(** ** The sitemap *)

Lemma prefix_append (p s : string) : String.prefix p (p ++ s) = true.
Proof.
  induction p as [|c p IH]; cbn [append String.prefix]; [now destruct s|].
  destruct (ascii_dec c c); [exact IH | congruence].
Qed.

Lemma includes_append (a pattern b : string) :
  includes pattern (a ++ pattern ++ b) = true.
Proof.
  induction a as [|c a IH].
  - cbn [append]. destruct (pattern ++ b) eqn:E; cbn [includes];
      rewrite <- E, prefix_append; reflexivity.
  - cbn [append includes]. rewrite IH. apply orb_true_r.
Qed.

Lemma endsWith_suffix (suffix s : string) :
  endsWith suffix s = true -> exists before, s = before ++ suffix.
Proof.
  induction s as [|c r IH]; cbn [endsWith]; intros H.
  - rewrite orb_false_r in H. apply String.eqb_eq in H. exists "". now subst.
  - apply orb_true_iff in H. destruct H as [H|H].
    + apply String.eqb_eq in H. exists "". now subst.
    + destruct (IH H) as [before ->]. now exists (String c before).
Qed.

Lemma append_cancel_last (a b : string) (c : ascii) :
  a ++ String c "" = b ++ String c "" -> a = b.
Proof.
  revert b. induction a as [|x a IH]; intros [|y b] H; cbn [append] in H.
  - reflexivity.
  - injection H as _ H. now destruct b.
  - injection H as _ H. now destruct a.
  - injection H as -> H. f_equal. now apply IH.
Qed.

(** A string that ends in a slash, a segment and a slash ends in that
    segment only. *)
Lemma last_segment_unique (a b x y : string) :
  noSlash x -> noSlash y ->
  a ++ "/" ++ x ++ "/" = b ++ "/" ++ y ++ "/" -> x = y.
Proof.
  intros Hx Hy H.
  assert (a ++ "/" ++ x = b ++ "/" ++ y) as E.
  { apply (append_cancel_last _ _ "/"%char).
    now rewrite !append_assoc in *. }
  destruct (split_ends_with_key a x Hx) as (i1 & _ & E1).
  destruct (split_ends_with_key b y Hy) as (i2 & _ & E2).
  rewrite E in E1. rewrite E1 in E2.
  pose proof (pop_snoc i1 x) as P1. rewrite E2, pop_snoc in P1.
  now injection P1.
Qed.

Lemma dropTrailingSlash_slash (s : string) :
  dropTrailingSlash (s ++ "/") = s.
Proof.
  induction s as [|c r IH]; [reflexivity|].
  cbn [append dropTrailingSlash]. rewrite IH.
  destruct (r ++ "/") eqn:E; [|reflexivity].
  destruct r; discriminate E.
Qed.

Lemma skip_append (p s : string) : skip (String.length p) (p ++ s) = s.
Proof.
  induction p as [|c p IH]; [now destruct s | exact IH].
Qed.

Lemma replaceFirst_prefix (p replacement s : string) :
  replaceFirst p replacement (p ++ s) = replacement ++ s.
Proof.
  destruct (p ++ s) eqn:E; cbn [replaceFirst];
    rewrite <- E, prefix_append, skip_append; reflexivity.
Qed.

Lemma post_url_is_no_listing (slug segment : string) :
  noSlash slug -> noSlash segment -> slug <> segment ->
  endsWith ("/" ++ segment ++ "/")
    ("https://tskulbru.dev/posts/" ++ slug ++ "/") = false.
Proof.
  intros Hs Hg Hne.
  destruct (endsWith _ _) eqn:E; [|reflexivity].
  apply endsWith_suffix in E. destruct E as [before E].
  exfalso. apply Hne.
  apply (last_segment_unique "https://tskulbru.dev/posts" before); assumption.
Qed.

(** X23: for the page of a post, [https://tskulbru.dev/posts/], the
    slug and a slash, with a slug that has no slash and is neither
    [posts] nor [portfolio], the slug the code cuts out of the address
    is the slug, the item is rated 0.8 and monthly, and its date is the
    ISO form of the date recorded for the slug, if one is recorded and
    is not empty; without one the date the item came with stays; a
    recorded date that does not exist makes the call throw. *)
Theorem post_page_is_dated_by_its_slug
    (postDates : string -> option (option string))
    (toISOString : string -> option string)
    (item : Sitemap.Item) (slug : string) :
  noSlash slug -> slug <> "posts" -> slug <> "portfolio" ->
  Sitemap.url item = "https://tskulbru.dev/posts/" ++ slug ++ "/" ->
  dropTrailingSlash
    (replaceFirst "https://tskulbru.dev/posts/" "" (Sitemap.url item)) = slug
  /\ Sitemap.serialize postDates toISOString item
     = match postDates slug with
       | Some (Some (String c d)) =>
           option_map
             (fun iso =>
                Sitemap.mkItem (Sitemap.url item) (Some 8%N) (Some "monthly")
                  (Some iso))
             (toISOString (String c d))
       | _ =>
           Some (Sitemap.mkItem (Sitemap.url item) (Some 8%N) (Some "monthly")
                   (Sitemap.lastmod item))
       end.
Proof.
  intros Hs Hp Hf Hurl.
  assert (dropTrailingSlash
            (replaceFirst "https://tskulbru.dev/posts/" ""
               (Sitemap.url item)) = slug) as Hslug.
  { rewrite Hurl.
    rewrite replaceFirst_prefix. apply dropTrailingSlash_slash. }
  split; [exact Hslug|].
  unfold Sitemap.serialize. rewrite Hslug. rewrite Hurl.
  change (String.eqb ("https://tskulbru.dev/posts/" ++ slug ++ "/")
            "https://tskulbru.dev/") with false.
  change (String.eqb ("https://tskulbru.dev/posts/" ++ slug ++ "/")
            "https://tskulbru.dev") with false.
  cbn [orb].
  pose proof (post_url_is_no_listing slug "posts" Hs
                (noSlash_sample "posts" eq_refl) Hp) as H1.
  pose proof (post_url_is_no_listing slug "portfolio" Hs
                (noSlash_sample "portfolio" eq_refl) Hf) as H2.
  change ("/" ++ "posts" ++ "/") with "/posts/" in H1.
  change ("/" ++ "portfolio" ++ "/") with "/portfolio/" in H2.
  rewrite H1, H2. cbn [orb negb].
  pose proof (includes_append "https://tskulbru.dev" "/posts/" (slug ++ "/"))
    as H3.
  change ("https://tskulbru.dev" ++ "/posts/" ++ slug ++ "/")
    with ("https://tskulbru.dev/posts/" ++ slug ++ "/") in H3.
  rewrite H3. cbn [andb]. unfold Sitemap.rate. cbn [Sitemap.url Sitemap.priority Sitemap.changefreq Sitemap.lastmod].
  destruct (postDates slug) as [[[|c d]|]|]; rewrite ?Hurl; reflexivity.
Qed.

Lemma post_page_is_dated_by_its_slug_sample :
  noSlash "my-post" /\ "my-post" <> "posts" /\ "my-post" <> "portfolio" /\
  Sitemap.serialize
    (fun slug => if String.eqb slug "my-post"
                 then Some (Some "2025-06-01") else None)
    (fun d => Some (d ++ "T00:00:00.000Z"))
    (Sitemap.mkItem "https://tskulbru.dev/posts/my-post/" None None None)
  = Some (Sitemap.mkItem "https://tskulbru.dev/posts/my-post/" (Some 8%N)
            (Some "monthly") (Some "2025-06-01T00:00:00.000Z")).
Proof.
  assert (noSlash "my-post") as Hn by (apply noSlash_sample; reflexivity).
  split; [exact Hn|]. split; [discriminate|]. split; [discriminate|].
  apply (post_page_is_dated_by_its_slug
           (fun slug => if String.eqb slug "my-post"
                        then Some (Some "2025-06-01") else None)
           (fun d => Some (d ++ "T00:00:00.000Z"))
           (Sitemap.mkItem "https://tskulbru.dev/posts/my-post/" None None None)
           "my-post" Hn); [discriminate | discriminate | reflexivity].
Defined.

(** A post whose slug is [portfolio] is taken for a listing: rated 0.9
    and weekly, its recorded date not looked up. *)
Example post_named_portfolio :
  Sitemap.serialize (fun _ => Some (Some "2025-06-01"))
    (fun d => Some (d ++ "T00:00:00.000Z"))
    (Sitemap.mkItem "https://tskulbru.dev/posts/portfolio/" None None None)
  = Some (Sitemap.mkItem "https://tskulbru.dev/posts/portfolio/" (Some 9%N)
            (Some "weekly") None).
Proof. reflexivity. Qed.

(** X24: whatever the item, the call leaves its address as it is and
    rates it with one of six pairs of priority and change frequency
    (monthly goes with 0.8 only, yearly with 0.3 only); it changes the
    date of an item rated 0.8 only; and it throws only for an address
    that contains [/posts/] when the date recorded for its slug does
    not exist. *)
Theorem serialize_rates_every_item
    (postDates : string -> option (option string))
    (toISOString : string -> option string) (item : Sitemap.Item) :
  match Sitemap.serialize postDates toISOString item with
  | Some out =>
      Sitemap.url out = Sitemap.url item /\
      In (Sitemap.priority out, Sitemap.changefreq out)
        [ (Some 10%N, Some "weekly"); (Some 9%N, Some "weekly");
          (Some 8%N, Some "monthly"); (Some 7%N, Some "weekly");
          (Some 5%N, Some "weekly"); (Some 3%N, Some "yearly") ] /\
      (Sitemap.lastmod out = Sitemap.lastmod item \/
       Sitemap.priority out = Some 8%N)
  | None =>
      includes "/posts/" (Sitemap.url item) = true /\
      exists date,
        postDates
          (dropTrailingSlash
             (replaceFirst "https://tskulbru.dev/posts/" ""
                (Sitemap.url item))) = Some (Some date) /\
        toISOString date = None
  end.
Proof.
  unfold Sitemap.serialize.
  destruct (_ || _).
  { cbn. intuition. }
  destruct (_ || _).
  { cbn. intuition. }
  destruct (includes "/posts/" (Sitemap.url item)) eqn:Hi; cbn [andb].
  - destruct (negb _).
    + destruct (postDates _) as [[[|c d]|]|] eqn:Hp;
        try (cbn; intuition; fail).
      destruct (toISOString (String c d)) eqn:Ht.
      * cbn. intuition.
      * split; [reflexivity|]. now exists (String c d).
    + destruct (includes "/tags/" _); [cbn; intuition|].
      destruct (includes "/apps/" _); cbn; intuition.
  - destruct (includes "/tags/" _); [cbn; intuition|].
    destruct (includes "/apps/" _); cbn; intuition.
Qed.
